(** * Treasury ledger reconstruction: a shallow embedding of the Solana
      transfer scripts (get_sol_transfers.py, examine_all_txs.py,
      scripts/fetch_contributions.py) and the properties checked on them.

    Python values are embedded as follows.
    - [int] is [Z]; [float] is the kernel's binary64 [float], whose
      operations are the IEEE ones Python uses.
    - [int / int] (true division) is the correctly rounded quotient of the
      two integers, raising [OverflowError] when it does not fit a float.
    - a JSON object read with subscripts is a record; a key read with
      [.get] or tested with [in] is an optional field.
    - a call that can raise returns a [result]. *)

From Stdlib Require Import ZArith Floats List String Ascii Bool Lia.
From Stdlib Require Import Permutation Sorted.
From Equations Require Import Equations.
Import ListNotations.
Open Scope string_scope.
Open Scope list_scope.
Open Scope Z_scope.

(* ===================================================================== *)
(** * Part I. Definitions *)
(* ===================================================================== *)

(** ** Python runtime *)

Inductive exn : Type :=
| IndexError
| TypeError
| OverflowError
| ZeroDivisionError
| ValueError
| OSError.

Inductive result (A : Type) : Type :=
| Ok (a : A)
| Raise (e : exn).
Arguments Ok {A} a.
Arguments Raise {A} e.

Definition bind {A B : Type} (r : result A) (k : A -> result B) : result B :=
  match r with
  | Ok a => k a
  | Raise e => Raise e
  end.

Notation "x <- r ;; k" := (bind r (fun x => k))
  (at level 61, r at next level, right associativity).

(** A JSON field that may be missing, present with [null], or present
    with a value. *)
Inductive jfield (A : Type) : Type :=
| Absent
| JNull
| JVal (a : A).
Arguments Absent {A}.
Arguments JNull {A}.
Arguments JVal {A} a.

(** [d.get(k, default)]: the default replaces a missing key only. *)
Definition jget {A : Type} (f : jfield A) (default : A) : option A :=
  match f with
  | Absent => Some default
  | JNull => None
  | JVal a => Some a
  end.

(** [l[i]] on a list. *)
Definition index {A : Type} (l : list A) (i : nat) : result A :=
  match nth_error l i with
  | Some a => Ok a
  | None => Raise IndexError
  end.

(** An integer as an unrounded binary float [m * 2^0]. *)
Definition Z2SF (z : Z) : spec_float :=
  match z with
  | Z0 => S754_zero false
  | Zpos p => S754_finite false p 0
  | Zneg p => S754_finite true p 0
  end.

(** The least magnitude that rounds to infinity: [2^1024 - 2^970]. *)
Definition DBL_OVERFLOW : Z := 2 ^ 1024 - 2 ^ 970.

(** [a / b] on two ints. *)
Definition int_truediv (a b : Z) : result float :=
  if b =? 0 then Raise ZeroDivisionError
  else if Z.abs b * DBL_OVERFLOW <=? Z.abs a then Raise OverflowError
  else Ok (SF2Prim (SF64div (Z2SF a) (Z2SF b))).

(** [sub in s] on strings. *)
Definition str_contains (sub s : string) : bool :=
  match String.index 0 sub s with
  | Some _ => true
  | None => false
  end.

(** Truthiness of an optional string: [None] and [""] are false. *)
Definition str_truthy (o : option string) : bool :=
  match o with
  | Some s => negb (String.eqb s "")
  | None => false
  end.

(** [o == s] for a value that is a string or [None]. *)
Definition opt_str_eqb (o : option string) (s : string) : bool :=
  match o with
  | Some s' => String.eqb s' s
  | None => false
  end.

(** [sum(xs)]: additions from the left, starting at 0. (CPython from 3.12
    on carries an error-compensation term besides; it is zero whenever the
    partial sums are exact.) *)
Definition py_sum (xs : list float) : float :=
  fold_left PrimFloat.add xs 0%float.

(** [l.sort(key=key, reverse=True)]: descending keys, elements with equal
    keys kept in their original order. *)
Fixpoint insert_desc {A : Type} (key : A -> Z) (x : A) (l : list A) : list A :=
  match l with
  | [] => [x]
  | y :: l' => if key y <=? key x then x :: l else y :: insert_desc key x l'
  end.

Fixpoint sort_reverse {A : Type} (key : A -> Z) (l : list A) : list A :=
  match l with
  | [] => []
  | x :: l' => insert_desc key x (sort_reverse key l')
  end.

(** ** Constants of get_sol_transfers.py *)

Definition TREASURY_WALLET : string :=
  "4rYvLKto7HzVESZnXj7RugCyDgjz4uWeHR4MHCy3obNh".

Definition RPC_URLS : list string :=
  [ "https://solana-mainnet.core.chainstack.com/469f92be2bf990aaeef35e0fef1a5e85/";
    "https://api.mainnet-beta.solana.com";
    "https://rpc.ankr.com/solana";
    "https://solana.api.onfinality.io/public" ].

Definition MAX_TRANSACTIONS_TO_PROCESS : nat := 500.

Definition LAMPORTS_PER_SOL : Z := 1000000000.

(** The literal [0.000001], i.e. the float nearest to 10^-6. *)
Definition DUST_EPSILON : float := SF2Prim (SF64div (Z2SF 1) (Z2SF 1000000)).

Definition SYSTEM_INVOKE : string :=
  "Program 11111111111111111111111111111111 invoke".

(** ** The [getTransaction] result, as the extractor reads it *)

(** An entry of [accountKeys]: a bare address, or an object with an
    optional ["pubkey"]. *)
Inductive AccountKey : Type :=
| KeyStr (address : string)
| KeyDict (pubkey : option string).

Record TransferInfo : Type := {
  info_source : option string;
  info_destination : option string;
  info_lamports : option Z
}.

Record Parsed : Type := {
  parsed_type : option string;
  parsed_info : option TransferInfo
}.

Record Instruction : Type := {
  instr_parsed : option Parsed;
  instr_program : option string
}.

Record Meta : Type := {
  preBalances : list Z;
  postBalances : list Z;
  fee : Z;
  err : option string;
  logMessages : jfield (list string)
}.

Record Message : Type := {
  accountKeys : list AccountKey;
  instructions : option (list Instruction)
}.

Record Transaction : Type := {
  signatures : list string;
  message : Message
}.

(** [tx_meta = None] stands for a missing, null or empty ["meta"]. *)
Record TxData : Type := {
  tx_meta : option Meta;
  tx_transaction : Transaction;
  blockTime : jfield Z
}.

(** ** The transfer record built by [extract_sol_transfers] *)

(** [strftime] of the local time of a timestamp. The text depends on the
    host's time zone; it is kept as the timestamp it renders. *)
Inductive local_time : Type :=
| LocalTime (timestamp_sec : Z).

(** The timestamps [datetime.fromtimestamp] accepts, and what it raises
    on the others, as CPython does on a POSIX host with a 64-bit [time_t]
    whose local zone is UTC: outside [time_t] the conversion of the
    integer fails; where the year does not fit a C [int], [localtime]
    fails; elsewhere the year must lie in 1..9999, also one day earlier
    (the probe for a repeated local hour). In another zone the two inner
    bounds move by the zone's offset. *)
Definition TIME_T_MIN : Z := - 2 ^ 63.
Definition TIME_T_MAX : Z := 2 ^ 63 - 1.
Definition LOCALTIME_MIN : Z := -67768040609740800.
Definition LOCALTIME_MAX : Z := 67768036191676799.
Definition DATETIME_MIN : Z := -62135510400.
Definition DATETIME_MAX : Z := 253402300799.

Definition fromtimestamp (timestamp_sec : Z) : result Z :=
  if (timestamp_sec <? TIME_T_MIN) || (TIME_T_MAX <? timestamp_sec)
  then Raise OverflowError
  else if (timestamp_sec <? LOCALTIME_MIN) || (LOCALTIME_MAX <? timestamp_sec)
  then Raise OSError
  else if (timestamp_sec <? DATETIME_MIN) || (DATETIME_MAX <? timestamp_sec)
  then Raise ValueError
  else Ok timestamp_sec.

(** The f-strings of the description, by their parts. *)
Inductive Description : Type :=
| NoDescription
| TransferTo (amount : float) (destination : option string)
| ReceiveFrom (amount : float) (source : option string).

Record Transfer : Type := {
  timestamp : Z;
  formatted_time : local_time;
  signature : string;
  balance_change : float;
  counterparty : string;
  is_system_transfer : bool;
  description : Description
}.

(** ** get_sol_transfers.py: [format_timestamp] *)

Definition format_timestamp (timestamp_sec : option Z) : result local_time :=
  match timestamp_sec with
  | Some t => t' <- fromtimestamp t ;; Ok (LocalTime t')
  | None => Raise TypeError
  end.

(** ** get_sol_transfers.py: [extract_sol_transfers] *)

(** The test of the treasury search loop on one key. *)
Definition key_is (key : AccountKey) (treasury_address : string) : bool :=
  match key with
  | KeyDict p => opt_str_eqb p treasury_address
  | KeyStr s => String.eqb s treasury_address
  end.

Fixpoint find_treasury_index (account_keys : list AccountKey)
    (treasury_address : string) (i : nat) : option nat :=
  match account_keys with
  | [] => None
  | key :: rest =>
      if key_is key treasury_address then Some i
      else find_treasury_index rest treasury_address (S i)
  end.

(** [key.get("pubkey")] for an object, the key itself otherwise. *)
Definition key_address (key : AccountKey) : option string :=
  match key with
  | KeyDict p => p
  | KeyStr s => Some s
  end.

(** The sender loop (incoming transfer), from position [i] of
    [zip(pre_balances, post_balances)]. *)
Fixpoint find_sender (account_keys : list AccountKey) (fee_lamports : Z)
    (treasury_index : nat) (balance_change : float)
    (i : nat) (balances : list (Z * Z)) : result (option string) :=
  match balances with
  | [] => Ok None
  | (pre, post) :: rest =>
      if (i =? treasury_index)%nat then
        find_sender account_keys fee_lamports treasury_index balance_change (S i) rest
      else
        change <- int_truediv (post - pre) LAMPORTS_PER_SOL ;;
        if (change <? 0)%float then
          fee_sol <- int_truediv fee_lamports LAMPORTS_PER_SOL ;;
          if (abs balance_change <=? abs (change + fee_sol))%float then
            sender_key <- index account_keys i ;;
            Ok (key_address sender_key)
          else
            find_sender account_keys fee_lamports treasury_index balance_change (S i) rest
        else
          find_sender account_keys fee_lamports treasury_index balance_change (S i) rest
  end.

(** The recipient loop (outgoing transfer). *)
Fixpoint find_recipient (account_keys : list AccountKey)
    (treasury_index : nat) (balance_change : float)
    (i : nat) (balances : list (Z * Z)) : result (option string) :=
  match balances with
  | [] => Ok None
  | (pre, post) :: rest =>
      if (i =? treasury_index)%nat then
        find_recipient account_keys treasury_index balance_change (S i) rest
      else
        change <- int_truediv (post - pre) LAMPORTS_PER_SOL ;;
        if ((0 <? change) && (abs balance_change <=? abs change))%float then
          recipient_key <- index account_keys i ;;
          Ok (key_address recipient_key)
        else
          find_recipient account_keys treasury_index balance_change (S i) rest
  end.

(** The log loop: any line mentioning an invocation of the system
    program sets the flag. *)
Definition scan_logs (log_messages : list string) : bool :=
  existsb (str_contains SYSTEM_INVOKE) log_messages.

(** The instruction loop: every parsed system transfer that names the
    treasury overwrites the description. *)
Fixpoint describe (treasury_address : string) (instrs : list Instruction)
    (description : Description) : result Description :=
  match instrs with
  | [] => Ok description
  | instr :: rest =>
      match instr_parsed instr with
      | Some parsed =>
          if opt_str_eqb (instr_program instr) "system"
             && opt_str_eqb (parsed_type parsed) "transfer" then
            let transfer_info :=
              match parsed_info parsed with
              | Some info => info
              | None => {| info_source := None; info_destination := None;
                           info_lamports := None |}
              end in
            let source := info_source transfer_info in
            let destination := info_destination transfer_info in
            amount <- int_truediv
                        (match info_lamports transfer_info with
                         | Some l => l
                         | None => 0
                         end) LAMPORTS_PER_SOL ;;
            if opt_str_eqb source treasury_address then
              describe treasury_address rest (TransferTo amount destination)
            else if opt_str_eqb destination treasury_address then
              describe treasury_address rest (ReceiveFrom amount source)
            else describe treasury_address rest description
          else describe treasury_address rest description
      | None => describe treasury_address rest description
      end
  end.

Definition extract_sol_transfers (tx_data : option TxData)
    (treasury_address : string) : result (option Transfer) :=
  match tx_data with
  | None => Ok None
  | Some tx =>
  match tx_meta tx with
  | None => Ok None
  | Some meta =>
      let pre_balances := preBalances meta in
      let post_balances := postBalances meta in
      let account_keys := accountKeys (message (tx_transaction tx)) in
      match find_treasury_index account_keys treasury_address 0 with
      | None => Ok None
      | Some treasury_index =>
          match nth_error pre_balances treasury_index,
                nth_error post_balances treasury_index with
          | Some pre, Some post =>
              pre_balance <- int_truediv pre LAMPORTS_PER_SOL ;;
              post_balance <- int_truediv post LAMPORTS_PER_SOL ;;
              let balance_change := (post_balance - pre_balance)%float in
              if (DUST_EPSILON <? abs balance_change)%float then
                counterparty <-
                  (if (0 <? balance_change)%float then
                     find_sender account_keys (fee meta) treasury_index
                       balance_change 0 (combine pre_balances post_balances)
                   else
                     find_recipient account_keys treasury_index
                       balance_change 0 (combine pre_balances post_balances)) ;;
                let block_time := jget (blockTime tx) 0 in
                is_system <-
                  match logMessages meta with
                  | Absent => Ok false
                  | JNull => Raise TypeError
                  | JVal log_messages => Ok (scan_logs log_messages)
                  end ;;
                descr <-
                  match instructions (message (tx_transaction tx)) with
                  | None => Ok NoDescription
                  | Some instrs => describe treasury_address instrs NoDescription
                  end ;;
                formatted <- format_timestamp block_time ;;
                sig <- index (signatures (tx_transaction tx)) 0 ;;
                Ok (Some {|
                  timestamp := match block_time with Some t => t | None => 0 end;
                  formatted_time := formatted;
                  signature := sig;
                  balance_change := balance_change;
                  counterparty :=
                    if str_truthy counterparty
                    then match counterparty with Some c => c | None => "" end
                    else "Unknown";
                  is_system_transfer := is_system;
                  description := descr
                |})
              else Ok None
          | _, _ => Ok None
          end
      end
  end
  end.

(** ** get_sol_transfers.py: [rpc_request] *)

(** What one POST to one endpoint comes to: [requests.post] or
    [response.json()] raised; the body carries an ["error"] key; or the
    body carries none and is returned as it is. *)
Inductive http_outcome (J : Type) : Type :=
| HttpException
| RpcError (body : J)
| RpcResult (body : J).
Arguments HttpException {J}.
Arguments RpcError {J} body.
Arguments RpcResult {J} body.

(** [rpc_request(method, params, attempt)] over the endpoint list [urls].
    [post attempt url] is the outcome of the POST of this payload made at
    this attempt; the second component lists the endpoints contacted, in
    order. The modulo by an empty list raises. *)
Equations? rpc_request {J : Type} (urls : list string)
    (post : nat -> string -> http_outcome J) (attempt : nat)
    : result (option J) * list string
    by wf (List.length urls - attempt)%nat lt :=
  rpc_request urls post attempt
    with nth_error urls (attempt mod List.length urls)%nat => {
    | None => (Raise ZeroDivisionError, []);
    | Some url with post attempt url => {
      | RpcResult body => (Ok (Some body), [url]);
      | RpcError _ with lt_dec attempt (List.length urls - 1) => {
        | left _ =>
            let r := rpc_request urls post (S attempt) in
            (fst r, url :: snd r);
        | right _ => (Ok None, [url]) };
      | HttpException with lt_dec attempt (List.length urls - 1) => {
        | left _ =>
            let r := rpc_request urls post (S attempt) in
            (fst r, url :: snd r);
        | right _ => (Ok None, [url]) } } }.
Proof. all: lia. Qed.

(** What an endpoint sent back, before [rpc_request] looks at it:
    [requests.post] raised (connection error, timeout); a response whose
    body is not JSON, so that [response.json()] raises; a JSON number,
    boolean or null, on which ["error" in result] raises; or a JSON body
    on which it can be evaluated. Each response carries its HTTP status. *)
Inductive http_response (J : Type) : Type :=
| NoResponse
| NotJson (status : Z)
| JsonScalar (status : Z)
| JsonBody (status : Z) (body : J).
Arguments NoResponse {J}.
Arguments NotJson {J} status.
Arguments JsonScalar {J} status.
Arguments JsonBody {J} status body.

(** Lines 40-54 of the [try] block: the response is decoded and searched
    for an ["error"] key; its status is not read ([raise_for_status] is not
    called). [error_in body] is ["error" in result]. *)
Definition outcome_of {J : Type} (error_in : J -> bool)
    (response : http_response J) : http_outcome J :=
  match response with
  | NoResponse => HttpException
  | NotJson _ => HttpException
  | JsonScalar _ => HttpException
  | JsonBody _ body => if error_in body then RpcError body else RpcResult body
  end.

(** A JSON object as the list of its members, the values kept as text. *)
Definition json_object : Type := list (string * string).

(** [key in result] on an object. *)
Definition has_key (key : string) (result : json_object) : bool :=
  existsb (fun member => String.eqb (fst member) key) result.

(** The failure classes as the specification words them: a transport
    failure is a timeout, a connection error or a status that is not
    2xx. *)
Definition status_2xx (status : Z) : bool :=
  (200 <=? status) && (status <? 300).

Definition spec_TransportFailure {J : Type} (response : http_response J)
    : bool :=
  match response with
  | NoResponse => true
  | NotJson status => negb (status_2xx status)
  | JsonScalar status => negb (status_2xx status)
  | JsonBody status _ => negb (status_2xx status)
  end.

(** ** get_sol_transfers.py: [get_all_signatures] *)

Record SignatureRecord : Type := {
  sig_signature : string;
  sig_slot : Z;
  sig_blockTime : option Z;
  sig_err : option string
}.

(** What [rpc_request("getSignaturesForAddress", ...)] returns: [None]
    after every endpoint failed; otherwise the body, whose ["result"] is
    [None] when missing or null. *)
Definition signatures_response : Type := option (option (list SignatureRecord)).

(** The loop of [get_all_signatures]. [rpc calls before] is the answer to
    the request number [calls], sent with cursor [before] ([None]: no
    cursor in the parameters) and page size [limit]. The loop has no
    bound of its own: [fuel] bounds the number of requests, and [None]
    means it was used up. *)
Fixpoint get_all_signatures_loop (limit : nat)
    (rpc : nat -> option string -> signatures_response)
    (fuel calls : nat) (before : option string)
    (all_signatures : list SignatureRecord) : option (list SignatureRecord) :=
  match fuel with
  | O => None
  | S fuel' =>
      let cursor := if str_truthy before then before else None in
      match rpc calls cursor with
      | None => Some all_signatures
      | Some None => Some all_signatures
      | Some (Some []) => Some all_signatures
      | Some (Some (first :: others)) =>
          let batch := first :: others in
          let all_signatures := all_signatures ++ batch in
          if (List.length batch <? limit)%nat then Some all_signatures
          else
            get_all_signatures_loop limit rpc fuel' (S calls)
              (Some (sig_signature (last others first))) all_signatures
      end
  end.

Definition get_all_signatures
    (rpc : nat -> option string -> signatures_response) (fuel : nat)
    : option (list SignatureRecord) :=
  get_all_signatures_loop 100 rpc fuel 0 None [].

(** A provider serving a fixed history, newest first: a request returns at
    most [limit] records, those that follow the cursor. *)
Fixpoint after_signature (cursor : string) (history : list SignatureRecord)
    : list SignatureRecord :=
  match history with
  | [] => []
  | r :: rest =>
      if String.eqb (sig_signature r) cursor then rest
      else after_signature cursor rest
  end.

Definition fixed_history (history : list SignatureRecord) (limit : nat)
    : nat -> option string -> signatures_response :=
  fun _ before =>
    Some (Some (firstn limit
      match before with
      | None => history
      | Some cursor => after_signature cursor history
      end)).

(** The same provider, except that request number [k] fails on every
    endpoint. *)
Definition failing_at (k : nat)
    (rpc : nat -> option string -> signatures_response)
    : nat -> option string -> signatures_response :=
  fun calls before => if (calls =? k)%nat then None else rpc calls before.

(** ** get_sol_transfers.py: the loop and the totals of [main] *)

(** One round of the loop: a transfer that was extracted is appended. *)
Definition ingest (sol_transfers : list Transfer)
    (transfer_info : option Transfer) : list Transfer :=
  match transfer_info with
  | Some t => sol_transfers ++ [t]
  | None => sol_transfers
  end.

(** The loop over the signatures; [fetch] is [get_transaction_details]. An
    exception of the extractor ends the run. *)
Fixpoint process_signatures (fetch : string -> option TxData)
    (signatures : list SignatureRecord) (sol_transfers : list Transfer)
    : result (list Transfer) :=
  match signatures with
  | [] => Ok sol_transfers
  | sig_data :: rest =>
      match fetch (sig_signature sig_data) with
      | None => process_signatures fetch rest sol_transfers
      | Some tx_data =>
          transfer_info <- extract_sol_transfers (Some tx_data) TREASURY_WALLET ;;
          process_signatures fetch rest (ingest sol_transfers transfer_info)
      end
  end.

(** The loop as [main] runs it: over the first
    [MAX_TRANSACTIONS_TO_PROCESS] signatures, from an empty list. *)
Definition collect_transfers (fetch : string -> option TxData)
    (signatures : list SignatureRecord) : result (list Transfer) :=
  process_signatures fetch (firstn MAX_TRANSACTIONS_TO_PROCESS signatures) [].

Record Summary : Type := {
  transfers : list Transfer;
  total_incoming : float;
  total_outgoing : float;
  transfer_count : nat
}.

(** The sort and the totals that follow the loop. *)
Definition finalize (sol_transfers : list Transfer) : Summary :=
  let sorted := sort_reverse timestamp sol_transfers in
  {| transfers := sorted;
     total_incoming :=
       py_sum (map balance_change
                 (filter (fun t => (0 <? balance_change t)%float) sorted));
     total_outgoing :=
       py_sum (map (fun t => abs (balance_change t))
                 (filter (fun t => (balance_change t <? 0)%float) sorted));
     transfer_count := List.length sorted |}.

(** ** scripts/fetch_contributions.py: the tally of the main loop *)

Record Contribution : Type := {
  c_sender : option string;
  c_amount : float;
  c_timestamp : option Z;
  c_signature : string
}.

(** Lines 143-145: a contribution found is appended and added to the
    running total. *)
Definition ingest_contribution (state : list Contribution * float)
    (contribution : option Contribution) : list Contribution * float :=
  match contribution with
  | Some c => (fst state ++ [c], (snd state + c_amount c)%float)
  | None => state
  end.

(** ** examine_all_txs.py: the order of the incoming list *)

Record IncomingTx : Type := {
  in_signature : string;
  in_timestamp : option Z;
  in_amount : float
}.

(** [x["timestamp"] if x["timestamp"] else 0]. *)
Definition incoming_key (x : IncomingTx) : Z :=
  match in_timestamp x with
  | Some t => if t =? 0 then 0 else t
  | None => 0
  end.

Definition sort_incoming (incoming_txs : list IncomingTx) : list IncomingTx :=
  sort_reverse incoming_key incoming_txs.

(* ===================================================================== *)
(** * Part II. Properties *)
(* ===================================================================== *)

(** ** The RPC client *)

Section RpcClient.

Context {J : Type}.
Variable urls : list string.

(** An attempt failed: transport failure, or a body with an error. *)
Definition failed (o : http_outcome J) : bool :=
  match o with
  | RpcResult _ => false
  | _ => true
  end.

Lemma nth_error_mod (a : nat) :
  (a < List.length urls)%nat ->
  exists url, nth_error urls (a mod List.length urls)%nat = Some url
              /\ nth_error urls a = Some url.
Proof.
  intros Ha. rewrite Nat.mod_small by exact Ha.
  destruct (nth_error urls a) as [url|] eqn:E.
  - exists url. split; reflexivity.
  - apply nth_error_None in E. lia.
Qed.

Lemma skipn_nth_cons (a : nat) (url : string) :
  nth_error urls a = Some url -> skipn a urls = url :: skipn (S a) urls.
Proof.
  revert a. induction urls as [|u us IH]; intros [|a] H; simpl in *;
    try discriminate.
  - injection H as ->. reflexivity.
  - apply IH. exact H.
Qed.

(** One unfolding of the retry. *)
Lemma rpc_request_step (post : nat -> string -> http_outcome J)
    (a : nat) (url : string) :
  (a < List.length urls)%nat ->
  nth_error urls a = Some url ->
  rpc_request urls post a =
    match post a url with
    | RpcResult body => (Ok (Some body), [url])
    | _ =>
        if (a <? List.length urls - 1)%nat
        then (fst (rpc_request urls post (S a)),
              url :: snd (rpc_request urls post (S a)))
        else (Ok None, [url])
    end.
Proof.
  intros Ha Hn. rewrite rpc_request_equation_1.
  rewrite Nat.mod_small by exact Ha. rewrite Hn. simpl.
  destruct (post a url); simpl; try reflexivity.
  all: destruct (lt_dec a (List.length urls - 1)) as [Hl|Hl]; simpl;
    [ apply Nat.ltb_lt in Hl | apply Nat.ltb_nlt in Hl ]; rewrite Hl;
    reflexivity.
Qed.

(** Failures up to attempt [a + n], then a valid body: it is returned
    after [S n] further attempts. *)
Lemma rpc_request_from (post : nat -> string -> http_outcome J)
    (body : J) (n a : nat) :
  (a + n < List.length urls)%nat ->
  (forall i url, (a <= i < a + n)%nat -> nth_error urls i = Some url ->
                 failed (post i url) = true) ->
  (forall url, nth_error urls (a + n) = Some url ->
               post (a + n)%nat url = RpcResult body) ->
  rpc_request urls post a = (Ok (Some body), firstn (S n) (skipn a urls)).
Proof.
  revert a. induction n as [|n IH]; intros a Hlen Hfail Hok.
  - rewrite Nat.add_0_r in *.
    destruct (nth_error_mod a Hlen) as (url & _ & Hn).
    rewrite (rpc_request_step post a url Hlen Hn), (Hok url Hn).
    rewrite (skipn_nth_cons a url Hn). reflexivity.
  - assert (Ha : (a < List.length urls)%nat) by lia.
    destruct (nth_error_mod a Ha) as (url & _ & Hn).
    rewrite (rpc_request_step post a url Ha Hn).
    assert (Hf : failed (post a url) = true) by (apply Hfail; [lia | exact Hn]).
    assert (Hlt : (a <? List.length urls - 1)%nat = true)
      by (apply Nat.ltb_lt; lia).
    assert (Hrec : rpc_request urls post (S a)
                   = (Ok (Some body), firstn (S n) (skipn (S a) urls))).
    { apply IH.
      - lia.
      - intros i u Hi. apply Hfail. lia.
      - intros u Hu. replace (S a + n)%nat with (a + S n)%nat in * by lia.
        apply Hok. exact Hu. }
    rewrite (skipn_nth_cons a url Hn).
    destruct (post a url); try discriminate Hf; rewrite Hlt, Hrec;
      reflexivity.
Qed.

(** A terminal failure from attempt [a] on: every remaining endpoint was
    contacted, and each attempt failed. *)
Lemma rpc_request_none_from (post : nat -> string -> http_outcome J)
    (n a : nat) :
  (a + n = List.length urls - 1)%nat -> (a < List.length urls)%nat ->
  fst (rpc_request urls post a) = Ok None ->
  snd (rpc_request urls post a) = skipn a urls
  /\ forall i url, (a <= i)%nat -> nth_error urls i = Some url ->
                   failed (post i url) = true.
Proof.
  revert a. induction n as [|n IH]; intros a Hn Ha;
    destruct (nth_error_mod a Ha) as (url & _ & Hu);
    rewrite (rpc_request_step post a url Ha Hu), (skipn_nth_cons a url Hu).
  - assert (Hlt : (a <? List.length urls - 1)%nat = false)
      by (apply Nat.ltb_nlt; lia).
    assert (Hend : skipn (S a) urls = []) by (apply skipn_all2; lia).
    rewrite Hlt, Hend.
    destruct (post a url) eqn:Hp; simpl; intros H; try discriminate H.
    all: split; [reflexivity|].
    all: intros i u Hi Hnth;
           assert (Hb : (i < List.length urls)%nat)
             by (apply nth_error_Some; rewrite Hnth; discriminate);
           assert (i = a) by lia; subst i.
    all: rewrite Hu in Hnth; injection Hnth as <-; rewrite Hp; reflexivity.
  - assert (Hlt : (a <? List.length urls - 1)%nat = true)
      by (apply Nat.ltb_lt; lia).
    rewrite Hlt.
    destruct (post a url) eqn:Hp; simpl; intros H; try discriminate H.
    all: destruct (IH (S a)) as [Htr Hall]; [lia | lia | exact H |].
    all: split; [rewrite Htr; reflexivity|].
    all: intros i u Hi Hnth; destruct (Nat.eq_dec i a) as [->|Hne];
           [ rewrite Hu in Hnth; injection Hnth as <-; rewrite Hp; reflexivity
           | apply Hall; [lia | exact Hnth] ].
Qed.

(** Fail-over in terms of the branches of [rpc_request]: after [E - 1]
    attempts that took the [except] or the ["error"] branch and one that
    took neither, the body of the latter is returned after exactly [E]
    attempts, one per endpoint in list order; and [None] is returned only
    after every endpoint was contacted and took one of the two branches. *)
Lemma rpc_request_failover_outcomes (post : nat -> string -> http_outcome J)
    (E : nat) (body : J) :
  (1 <= E <= List.length urls)%nat ->
  (forall i url, (i < E - 1)%nat -> nth_error urls i = Some url ->
                 failed (post i url) = true) ->
  (forall url, nth_error urls (E - 1) = Some url ->
               post (E - 1)%nat url = RpcResult body) ->
  rpc_request urls post 0 = (Ok (Some body), firstn E urls)
  /\ List.length (snd (rpc_request urls post 0)) = E
  /\ (forall post' : nat -> string -> http_outcome J,
        fst (rpc_request urls post' 0) = Ok None ->
        snd (rpc_request urls post' 0) = urls
        /\ forall i url, nth_error urls i = Some url ->
                         failed (post' i url) = true).
Proof.
  intros HE Hfail Hok.
  assert (Hres : rpc_request urls post 0 = (Ok (Some body), firstn E urls)).
  { replace (firstn E urls) with (firstn (S (E - 1)) (skipn 0 urls))
      by (simpl skipn; f_equal; lia).
    apply (@rpc_request_from post body (E - 1) 0)%nat.
    - simpl. lia.
    - intros i url Hi. apply Hfail. lia.
    - simpl. exact Hok. }
  split; [exact Hres|]. split.
  - rewrite Hres. simpl. rewrite length_firstn. lia.
  - intros post' Hnone.
    destruct (@rpc_request_none_from post' (List.length urls - 1) 0)%nat
      as [Htr Hall]; [simpl; lia | lia | exact Hnone |].
    split; [exact Htr|]. intros i url. apply Hall. lia.
Qed.

End RpcClient.

(** The four configured endpoints: three failures, then a body. *)
Definition three_failures (i : nat) (url : string) : http_outcome Z :=
  match i with
  | 0%nat => HttpException
  | 1%nat => RpcError 429
  | 2%nat => HttpException
  | _ => RpcResult 7
  end.

Example three_failures_then_body :
  rpc_request RPC_URLS three_failures 0 = (Ok (Some 7), firstn 4 RPC_URLS).
Proof. vm_compute. reflexivity. Qed.

Section RpcResponses.

Variable J : Type.
Variable error_in : J -> bool.
Variable urls : list string.

(** The responses after which [rpc_request] goes on to the next endpoint
    (or gives up on the last): no response, a body that is not JSON or is
    a JSON scalar, and a JSON body with an ["error"] key. The status is not
    among the criteria. *)
Definition rotates (response : http_response J) : bool :=
  match response with
  | NoResponse => true
  | NotJson _ => true
  | JsonScalar _ => true
  | JsonBody _ body => error_in body
  end.

(** [rpc_request] against endpoints that respond by [respond]. *)
Definition post_of (respond : nat -> string -> http_response J)
    : nat -> string -> http_outcome J :=
  fun attempt url => outcome_of error_in (respond attempt url).

Lemma failed_outcome_of (response : http_response J) :
  failed (outcome_of error_in response) = rotates response.
Proof.
  destruct response as [|status|status|status body]; try reflexivity.
  simpl. destruct (error_in body); reflexivity.
Qed.

(** C6 (amended). If each of the first [E - 1] endpoints gives no
    response, a body that is not JSON, or a JSON body with an error field,
    and endpoint number [E] answers with a JSON body without an error
    field, whatever its HTTP status, then [rpc_request] returns that body
    after exactly [E] attempts, one per endpoint in list order. Whatever
    the endpoints answer, it returns the terminal failure [None] only
    after all [len(RPC_URLS)] endpoints were contacted and each answer was
    of one of these three kinds. *)
Theorem rpc_request_failover_by_body
    (respond : nat -> string -> http_response J)
    (E : nat) (status : Z) (body : J) :
  (1 <= E <= List.length urls)%nat ->
  (forall i url, (i < E - 1)%nat -> nth_error urls i = Some url ->
                 rotates (respond i url) = true) ->
  (forall url, nth_error urls (E - 1) = Some url ->
               respond (E - 1)%nat url = JsonBody status body) ->
  error_in body = false ->
  rpc_request urls (post_of respond) 0 = (Ok (Some body), firstn E urls)
  /\ List.length (snd (rpc_request urls (post_of respond) 0)) = E
  /\ (forall respond' : nat -> string -> http_response J,
        fst (rpc_request urls (post_of respond') 0) = Ok None ->
        snd (rpc_request urls (post_of respond') 0) = urls
        /\ forall i url, nth_error urls i = Some url ->
                         rotates (respond' i url) = true).
Proof.
  intros HE Hfail Hok Hbody.
  destruct (@rpc_request_failover_outcomes J urls (post_of respond) E body HE)
    as (Hres & Hlen & Hnone).
  - intros i url Hi Hnth. unfold post_of. rewrite failed_outcome_of.
    apply Hfail; assumption.
  - intros url Hnth. unfold post_of. rewrite (Hok url Hnth). simpl.
    rewrite Hbody. reflexivity.
  - split; [exact Hres|]. split; [exact Hlen|].
    intros respond' Hr. destruct (Hnone (post_of respond') Hr) as [Htr Hall].
    split; [exact Htr|]. intros i url Hnth.
    rewrite <- failed_outcome_of. apply (Hall i url Hnth).
Qed.

End RpcResponses.

Arguments rotates {J} error_in response.
Arguments post_of {J} error_in respond _ _.

(** The first endpoint is overloaded and says so with status 503 and a
    JSON body that has no ["error"] key; the second one answers. *)
Definition overloaded_body : json_object := [("message", "Service Unavailable")].

Definition slot_body : json_object :=
  [("jsonrpc", "2.0"); ("id", "1"); ("result", "250000000")].

Definition overloaded_first (attempt : nat) (url : string)
    : http_response json_object :=
  match attempt with
  | O => JsonBody 503 overloaded_body
  | _ => JsonBody 200 slot_body
  end.

(** C6, counterexample. The first endpoint fails in the sense of the
    specification (its status is not 2xx) and the second one returns a
    valid result, yet [rpc_request] makes one attempt and returns the body
    of the 503 response: not the valid result, and not after two
    attempts. *)
Lemma non_2xx_body_is_returned :
  (exists url, nth_error RPC_URLS 0 = Some url
               /\ spec_TransportFailure (overloaded_first 0 url) = true)
  /\ (exists url, nth_error RPC_URLS 1 = Some url
                  /\ overloaded_first 1 url = JsonBody 200 slot_body
                  /\ has_key "error" slot_body = false)
  /\ rpc_request RPC_URLS (post_of (has_key "error") overloaded_first) 0
     = (Ok (Some overloaded_body), firstn 1 RPC_URLS)
  /\ rpc_request RPC_URLS (post_of (has_key "error") overloaded_first) 0
     <> (Ok (Some slot_body), firstn 2 RPC_URLS).
Proof.
  split; [eexists; split; reflexivity|].
  split; [eexists; split; [reflexivity|]; split; reflexivity|].
  split; [vm_compute; reflexivity|].
  vm_compute. discriminate.
Qed.

(** Three endpoints that rotate (a timeout, an error body served with
    status 200, a page that is not JSON served with status 502) and a
    fourth whose body is returned although its status is 500. *)
Definition three_rotations (attempt : nat) (url : string)
    : http_response json_object :=
  match attempt with
  | 0%nat => NoResponse
  | 1%nat => JsonBody 200 [("error", "rate limited")]
  | 2%nat => NotJson 502
  | _ => JsonBody 500 slot_body
  end.

Lemma rpc_request_failover_by_body_witness :
  rpc_request RPC_URLS (post_of (has_key "error") three_rotations) 0
    = (Ok (Some slot_body), firstn 4 RPC_URLS)
  /\ List.length
       (snd (rpc_request RPC_URLS (post_of (has_key "error") three_rotations) 0))
     = 4%nat
  /\ (forall respond' : nat -> string -> http_response json_object,
        fst (rpc_request RPC_URLS (post_of (has_key "error") respond') 0)
          = Ok None ->
        snd (rpc_request RPC_URLS (post_of (has_key "error") respond') 0)
          = RPC_URLS
        /\ forall i url, nth_error RPC_URLS i = Some url ->
                         rotates (has_key "error") (respond' i url) = true).
Proof.
  apply (rpc_request_failover_by_body json_object (has_key "error") RPC_URLS
           three_rotations 4 500 slot_body).
  - simpl. lia.
  - intros [|[|[|i]]] url Hi _; simpl in *; try reflexivity. lia.
  - intros url _. reflexivity.
  - reflexivity.
Defined.

(** ** The signature paginator *)

Section Paginator.

Variable limit : nat.
Hypothesis limit_pos : (0 < limit)%nat.

(** The cursor the loop holds once it has collected [collected]. *)
Definition cursor_after (collected : list SignatureRecord) : option string :=
  match collected with
  | [] => None
  | r :: rs => Some (sig_signature (last rs r))
  end.

Lemma last_cons (rs : list SignatureRecord) (r d : SignatureRecord) :
  last (r :: rs) d = last rs r.
Proof.
  revert r d. induction rs as [|x rs IH]; intros r d.
  - reflexivity.
  - change (last (r :: x :: rs) d) with (last (x :: rs) d).
    rewrite !IH. reflexivity.
Qed.

Lemma last_app_cons (ds others : list SignatureRecord)
    (d first : SignatureRecord) :
  last (ds ++ first :: others) d = last others first.
Proof.
  revert d. induction ds as [|x ds IH]; intros d.
  - apply last_cons.
  - simpl app. rewrite last_cons. apply IH.
Qed.

Lemma cursor_after_app (collected others : list SignatureRecord)
    (first : SignatureRecord) :
  cursor_after (collected ++ first :: others)
  = Some (sig_signature (last others first)).
Proof.
  destruct collected as [|d ds]; simpl.
  - reflexivity.
  - rewrite last_app_cons. reflexivity.
Qed.

Lemma last_In (rs : list SignatureRecord) (r : SignatureRecord) :
  In (last rs r) (r :: rs).
Proof.
  revert r. induction rs as [|x rs IH]; intros r.
  - left. reflexivity.
  - right. rewrite last_cons. apply IH.
Qed.

(** With distinct signatures, the records that follow the cursor are the
    ones not collected yet. *)
Lemma after_cursor (collected rest : list SignatureRecord) (cursor : string) :
  NoDup (map sig_signature (collected ++ rest)) ->
  cursor_after collected = Some cursor ->
  after_signature cursor (collected ++ rest) = rest.
Proof.
  induction collected as [|r rs IH]; intros Hnd Hc; [discriminate Hc|].
  simpl in Hc. injection Hc as Hc. simpl.
  destruct rs as [|r' rs'].
  - simpl in Hc. subst cursor. rewrite String.eqb_refl. reflexivity.
  - simpl in Hnd. apply NoDup_cons_iff in Hnd. destruct Hnd as [Hnotin Hnd].
    assert (Hin : In cursor (map sig_signature ((r' :: rs') ++ rest))).
    { subst cursor. apply in_map. apply in_or_app. left.
      rewrite last_cons. apply last_In. }
    destruct (String.eqb_spec (sig_signature r) cursor) as [Heq|Hne].
    + exfalso. apply Hnotin. rewrite Heq. exact Hin.
    + apply IH; [exact Hnd|]. simpl. rewrite <- Hc, last_cons.
      reflexivity.
Qed.

Lemma cursor_truthy (collected : list SignatureRecord) :
  Forall (fun r => sig_signature r <> "") collected ->
  (if str_truthy (cursor_after collected)
   then cursor_after collected else None) = cursor_after collected.
Proof.
  intros Hne. destruct collected as [|r rs]; [reflexivity|].
  simpl. assert (Hin : In (last rs r) (r :: rs)) by apply last_In.
  rewrite Forall_forall in Hne. specialize (Hne _ Hin).
  destruct (String.eqb_spec (sig_signature (last rs r)) "") as [E|E];
    [contradiction | reflexivity].
Qed.

Variable history : list SignatureRecord.
Hypothesis distinct : NoDup (map sig_signature history).
Hypothesis nonempty : Forall (fun r => sig_signature r <> "") history.

(** What the provider answers to the request the loop makes once it has
    collected a prefix of the history: the next page. *)
Lemma next_page (collected rest : list SignatureRecord) (calls : nat) :
  history = collected ++ rest ->
  fixed_history history limit calls
    (if str_truthy (cursor_after collected)
     then cursor_after collected else None)
  = Some (Some (firstn limit rest)).
Proof.
  intros Hh. rewrite cursor_truthy.
  - unfold fixed_history. do 3 f_equal.
    destruct (cursor_after collected) as [c|] eqn:Ec.
    + rewrite Hh. apply after_cursor; [rewrite <- Hh; exact distinct | exact Ec].
    + destruct collected; [exact Hh | discriminate Ec].
  - rewrite Hh in nonempty. apply Forall_app in nonempty. tauto.
Qed.

Lemma firstn_short (rest : list SignatureRecord) :
  (List.length (firstn limit rest) <? limit)%nat = true ->
  firstn limit rest = rest.
Proof.
  intros H. apply Nat.ltb_lt in H. rewrite length_firstn in H.
  apply firstn_all2. lia.
Qed.

Lemma firstn_full (rest : list SignatureRecord) :
  (List.length (firstn limit rest) <? limit)%nat = false ->
  (limit <= List.length rest)%nat.
Proof.
  intros H. apply Nat.ltb_ge in H. rewrite length_firstn in H. lia.
Qed.

Lemma firstn_plus (a b : nat) (l : list SignatureRecord) :
  firstn (a + b) l = firstn a l ++ firstn b (skipn a l).
Proof.
  revert l. induction a as [|a IH]; intros l.
  - reflexivity.
  - destruct l as [|x l]; simpl.
    + rewrite firstn_nil. reflexivity.
    + rewrite IH. reflexivity.
Qed.

(** Enough requests collect the whole history. *)
Lemma loop_complete (fuel : nat) :
  forall (collected rest : list SignatureRecord) (calls : nat),
  history = collected ++ rest ->
  (List.length rest < fuel * limit)%nat ->
  get_all_signatures_loop limit (fixed_history history limit) fuel calls
    (cursor_after collected) collected = Some history.
Proof.
  induction fuel as [|fuel IH]; intros collected rest calls Hh Hlen;
    [simpl in Hlen; lia|].
  cbn [get_all_signatures_loop]. rewrite (@next_page collected rest calls Hh).
  destruct (firstn limit rest) as [|first others] eqn:Eb.
  - assert (Hz : List.length (firstn limit rest) = 0%nat) by (rewrite Eb; reflexivity).
    rewrite length_firstn in Hz.
    assert (rest = []) by (destruct rest; [reflexivity | simpl in Hz; lia]).
    subst rest. rewrite app_nil_r in Hh. congruence.
  - rewrite <- Eb.
    destruct (List.length (firstn limit rest) <? limit)%nat eqn:Es.
    + rewrite (firstn_short _ Es). congruence.
    + apply firstn_full in Es. rewrite Eb at 1.
      rewrite <- cursor_after_app with (collected := collected), <- Eb.
      apply IH with (rest := skipn limit rest).
      * rewrite <- app_assoc, firstn_skipn. exact Hh.
      * rewrite length_skipn. simpl in Hlen. lia.
Qed.

(** A request that fails on every endpoint ends the loop with the pages
    collected before it. *)
Lemma loop_failing (k : nat) :
  forall (fuel : nat) (collected rest : list SignatureRecord) (calls : nat),
  history = collected ++ rest ->
  (k * limit <= List.length rest)%nat ->
  (k < fuel)%nat ->
  get_all_signatures_loop limit
    (failing_at (calls + k) (fixed_history history limit)) fuel calls
    (cursor_after collected) collected
  = Some (collected ++ firstn (k * limit) rest).
Proof.
  induction k as [|k IH]; intros [|fuel] collected rest calls Hh Hlen Hf;
    try lia; cbn [get_all_signatures_loop]; unfold failing_at at 1.
  - rewrite Nat.add_0_r, Nat.eqb_refl. simpl. rewrite app_nil_r. reflexivity.
  - assert (Hne : (calls =? calls + S k)%nat = false)
      by (apply Nat.eqb_neq; lia).
    rewrite Hne, (@next_page collected rest calls Hh).
    assert (Hfull : (List.length (firstn limit rest) <? limit)%nat = false)
      by (apply Nat.ltb_ge; rewrite length_firstn; simpl in Hlen; lia).
    destruct (firstn limit rest) as [|first others] eqn:Eb.
    + simpl in Hfull. apply Nat.ltb_ge in Hfull. lia.
    + rewrite Hfull, <- (cursor_after_app collected others first), <- Eb.
      replace (calls + S k)%nat with (S calls + k)%nat by lia.
      rewrite (IH fuel (collected ++ firstn limit rest) (skipn limit rest)).
      * rewrite <- app_assoc. f_equal. f_equal.
        change (S k * limit)%nat with (limit + k * limit)%nat.
        symmetry. apply firstn_plus.
      * rewrite <- app_assoc, firstn_skipn. exact Hh.
      * rewrite length_skipn. simpl in Hlen. lia.
      * lia.
Qed.

(** C7. Against a provider that serves a fixed history of [K] records
    with distinct, non-empty signatures, newest first, in pages of at
    most [limit], the paginator terminates and returns exactly those [K]
    records in order, whether or not [limit] divides [K]:
    [K / limit + 1] requests are enough, the last one answered by an
    empty or a short page. If request number [k] fails on every endpoint
    while full pages are still being served, it returns the [k * limit]
    records collected before. The script runs with [limit = 100]. *)
Theorem get_all_signatures_exhausts_history :
  (forall fuel : nat,
      (List.length history / limit < fuel)%nat ->
      get_all_signatures_loop limit (fixed_history history limit)
        fuel 0 None [] = Some history)
  /\ (forall k fuel : nat,
      (k * limit <= List.length history)%nat ->
      (k < fuel)%nat ->
      get_all_signatures_loop limit
        (failing_at k (fixed_history history limit)) fuel 0 None []
      = Some (firstn (k * limit) history)).
Proof.
  split.
  - intros fuel Hfuel.
    apply (@loop_complete fuel [] history 0%nat); [reflexivity|].
    pose proof (Nat.div_mod_eq (List.length history) limit) as Hd.
    pose proof (Nat.mod_upper_bound (List.length history) limit) as Hm.
    nia.
  - intros k fuel Hk Hf.
    apply (@loop_failing k fuel [] history 0%nat); [reflexivity | exact Hk | exact Hf].
Qed.

End Paginator.

(** Five signatures served two by two, and four served two by two. *)
Definition sig_record (s : string) : SignatureRecord :=
  {| sig_signature := s; sig_slot := 0; sig_blockTime := None; sig_err := None |}.

Definition five_signatures : list SignatureRecord :=
  map sig_record ["s5"; "s4"; "s3"; "s2"; "s1"].

Example get_all_signatures_four :
  get_all_signatures_loop 2 (fixed_history (map sig_record ["s4"; "s3"; "s2"; "s1"]) 2)
    3 0 None [] = Some (map sig_record ["s4"; "s3"; "s2"; "s1"]).
Proof. reflexivity. Qed.

Lemma get_all_signatures_exhausts_history_witness :
  (forall fuel : nat,
      (List.length five_signatures / 2 < fuel)%nat ->
      get_all_signatures_loop 2 (fixed_history five_signatures 2)
        fuel 0 None [] = Some five_signatures)
  /\ (forall k fuel : nat,
      (k * 2 <= List.length five_signatures)%nat ->
      (k < fuel)%nat ->
      get_all_signatures_loop 2
        (failing_at k (fixed_history five_signatures 2)) fuel 0 None []
      = Some (firstn (k * 2) five_signatures)).
Proof.
  apply (@get_all_signatures_exhausts_history 2).
  - lia.
  - repeat constructor; simpl; intuition discriminate.
  - repeat constructor; discriminate.
Defined.

(** The script's page size. *)
Corollary get_all_signatures_returns_history
    (history : list SignatureRecord) (fuel : nat) :
  NoDup (map sig_signature history) ->
  Forall (fun r => sig_signature r <> "") history ->
  (List.length history / 100 < fuel)%nat ->
  get_all_signatures (fixed_history history 100) fuel = Some history.
Proof.
  intros Hd Hn Hf. unfold get_all_signatures.
  apply (@loop_complete 100 ltac:(lia) history Hd Hn fuel [] history 0%nat);
    [reflexivity|].
  pose proof (Nat.div_mod_eq (List.length history) 100) as Hq.
  pose proof (Nat.mod_upper_bound (List.length history) 100) as Hm.
  lia.
Qed.

(** ** Facts on binary64 comparisons and differences *)

Section FloatFacts.

Example DUST_EPSILON_value : DUST_EPSILON = 0x1.0c6f7a0b5ed8dp-20%float.
Proof. vm_compute. reflexivity. Qed.

Example int_truediv_rounds_to_even :
  int_truediv 9007199254740993 1 = Ok 9007199254740992%float
  /\ int_truediv 1 3 = Ok (1 / 3)%float
  /\ int_truediv (-250000000) LAMPORTS_PER_SOL = Ok (-0.25)%float
  /\ int_truediv (2 ^ 1024) 1 = Raise OverflowError.
Proof. repeat split; vm_compute; reflexivity. Qed.

Lemma SFcompare_antisym (x y : spec_float) (c : comparison) :
  SFcompare x y = Some c -> SFcompare y x = Some (CompOpp c).
Proof.
  destruct x as [sx|sx| |sx mx ex], y as [sy|sy| |sy my ey]; simpl;
    try discriminate;
    try (intros H; injection H as <-;
         repeat match goal with s : bool |- _ => destruct s end;
         reflexivity).
  intros H; injection H as <-.
  destruct sx, sy; try reflexivity; f_equal;
    rewrite (Z.compare_antisym ex ey);
    destruct (ex ?= ey); simpl; try reflexivity;
    rewrite (Pos.compare_cont_antisym mx my Eq); reflexivity.
Qed.

(** [x <= y] excludes [y < x]. *)
Lemma leb_not_ltb (x y : float) :
  (x <=? y)%float = true -> (y <? x)%float = false.
Proof.
  rewrite leb_spec, ltb_spec. unfold SFleb, SFltb.
  destruct (SFcompare (Prim2SF x) (Prim2SF y)) as [c|] eqn:E;
    [|discriminate].
  rewrite (SFcompare_antisym _ _ c E).
  destruct c; simpl; try reflexivity; discriminate.
Qed.

(** [x - x] is a zero, or NaN when [x] is not finite. *)
Lemma sub_self (x : float) :
  SFabs (Prim2SF (x - x)) = S754_zero false
  \/ SFabs (Prim2SF (x - x)) = S754_nan.
Proof.
  rewrite sub_spec. unfold SF64sub.
  destruct (Prim2SF x) as [s|s| |s m e]; simpl.
  - left. destruct s; reflexivity.
  - right. destruct s; reflexivity.
  - right. reflexivity.
  - left. rewrite Z.sub_diag. reflexivity.
Qed.

(** So the difference of equal balances never exceeds the threshold. *)
Lemma sub_self_dust (x : float) :
  (DUST_EPSILON <? abs (x - x))%float = false.
Proof.
  rewrite ltb_spec, abs_spec.
  destruct (sub_self x) as [-> | ->]; vm_compute; reflexivity.
Qed.

End FloatFacts.

(** ** The transfer extractor: shape of the input and totality *)

(** Lamport amounts on this chain are unsigned 64-bit integers. *)
Definition U64 : Z := 18446744073709551616.

Definition u64 (z : Z) : bool := (0 <=? z) && (z <? U64).

(** The float [lamports / LAMPORTS_PER_SOL] when the division does not
    raise. *)
Definition to_sol (lamports : Z) : float :=
  SF2Prim (SF64div (Z2SF lamports) (Z2SF LAMPORTS_PER_SOL)).

Definition instr_ok (instr : Instruction) : bool :=
  match instr_parsed instr with
  | Some parsed =>
      match parsed_info parsed with
      | Some info =>
          match info_lamports info with
          | Some l => u64 l
          | None => true
          end
      | None => true
      end
  | None => true
  end.

(** The block time is one [format_timestamp] can render. *)
Definition block_time_ok (block_time : jfield Z) : bool :=
  match format_timestamp (jget block_time 0) with
  | Ok _ => true
  | Raise _ => false
  end.

(** A record as the data model describes it: the three sequences have
    one length, amounts are 64-bit, the block time is not null and within
    the range of [datetime], the log is not null, and there is a
    signature. *)
Definition well_formed (tx : TxData) : bool :=
  match tx_meta tx with
  | None => false
  | Some meta =>
      (List.length (accountKeys (message (tx_transaction tx)))
         =? List.length (preBalances meta))%nat
      && (List.length (preBalances meta) =? List.length (postBalances meta))%nat
      && forallb u64 (preBalances meta)
      && forallb u64 (postBalances meta)
      && u64 (fee meta)
      && match instructions (message (tx_transaction tx)) with
         | Some instrs => forallb instr_ok instrs
         | None => true
         end
      && block_time_ok (blockTime tx)
      && match logMessages meta with JNull => false | _ => true end
      && match signatures (tx_transaction tx) with [] => false | _ => true end
  end.

(** The test of the sender loop on one pair of balances. *)
Definition sender_test (fee_lamports : Z) (balance_change : float)
    (pre post : Z) : bool :=
  let change := to_sol (post - pre) in
  ((change <? 0) && (abs balance_change <=? abs (change + to_sol fee_lamports)))%float.

(** The string reported for a counterparty found or not. *)
Definition or_unknown (counterparty : option string) : string :=
  if str_truthy counterparty
  then match counterparty with Some c => c | None => "" end
  else "Unknown".

Section ExtractorTotal.

Lemma int_truediv_to_sol (z : Z) :
  Z.abs z < U64 -> int_truediv z LAMPORTS_PER_SOL = Ok (to_sol z).
Proof.
  intros Hz. unfold int_truediv.
  assert (Hb : U64 <= Z.abs LAMPORTS_PER_SOL * DBL_OVERFLOW)
    by (apply Z.leb_le; vm_compute; reflexivity).
  change (LAMPORTS_PER_SOL =? 0) with false. cbv iota.
  destruct (Z.leb_spec (Z.abs LAMPORTS_PER_SOL * DBL_OVERFLOW) (Z.abs z)) as [H|H].
  - exfalso. apply (Z.lt_irrefl U64).
    apply Z.le_lt_trans with (Z.abs z); [|exact Hz].
    apply Z.le_trans with (Z.abs LAMPORTS_PER_SOL * DBL_OVERFLOW); assumption.
  - reflexivity.
Qed.

Lemma u64_abs (z : Z) : u64 z = true -> Z.abs z < U64.
Proof.
  unfold u64. intros H. apply andb_true_iff in H. destruct H as [H1 H2].
  apply Z.leb_le in H1. apply Z.ltb_lt in H2. rewrite Z.abs_eq; assumption.
Qed.

Lemma u64_diff (p q : Z) : u64 p = true -> u64 q = true -> Z.abs (q - p) < U64.
Proof.
  unfold u64. intros Hp Hq.
  apply andb_true_iff in Hp. apply andb_true_iff in Hq.
  destruct Hp as [Hp1 Hp2], Hq as [Hq1 Hq2].
  apply Z.leb_le in Hp1, Hq1. apply Z.ltb_lt in Hp2, Hq2. lia.
Qed.

Definition pair_ok (pq : Z * Z) : Prop :=
  u64 (fst pq) = true /\ u64 (snd pq) = true.

Lemma index_in_range {A : Type} (l : list A) (i : nat) :
  (i < List.length l)%nat -> exists a, nth_error l i = Some a /\ index l i = Ok a.
Proof.
  intros H. unfold index. destruct (nth_error l i) as [a|] eqn:E.
  - exists a. split; reflexivity.
  - apply nth_error_None in E. lia.
Qed.

(** The sender loop returns the key of the first position, other than the
    treasury's, that passes [sender_test]; [None] when there is none. *)
Lemma find_sender_spec (keys : list AccountKey) (fee_lamports : Z)
    (idx : nat) (bc : float) (balances : list (Z * Z)) :
  u64 fee_lamports = true ->
  forall i : nat,
  Forall pair_ok balances ->
  (i + List.length balances <= List.length keys)%nat ->
  (exists j p q key,
      nth_error balances j = Some (p, q)
      /\ (i + j)%nat <> idx
      /\ sender_test fee_lamports bc p q = true
      /\ (forall j' p' q', (j' < j)%nat -> nth_error balances j' = Some (p', q') ->
            (i + j')%nat = idx \/ sender_test fee_lamports bc p' q' = false)
      /\ nth_error keys (i + j) = Some key
      /\ find_sender keys fee_lamports idx bc i balances = Ok (key_address key))
  \/ ((forall j p q, nth_error balances j = Some (p, q) ->
          (i + j)%nat = idx \/ sender_test fee_lamports bc p q = false)
      /\ find_sender keys fee_lamports idx bc i balances = Ok None).
Proof.
  intros Hfee. induction balances as [|[p q] rest IH]; intros i Hok Hlen.
  - right. split; [|reflexivity]. intros [|j] p q H; discriminate H.
  - inversion Hok as [|x l [Hp Hq] Hrest]; subst. simpl in Hp, Hq, Hlen.
    assert (Hskip :
      ((i =? idx)%nat = true \/ sender_test fee_lamports bc p q = false) ->
      find_sender keys fee_lamports idx bc i ((p, q) :: rest)
      = find_sender keys fee_lamports idx bc (S i) rest).
    { intros Hs. simpl. destruct (i =? idx)%nat eqn:Ei; [reflexivity|].
      destruct Hs as [Hs|Hs]; [discriminate Hs|].
      rewrite (int_truediv_to_sol _ (u64_diff p q Hp Hq)). simpl.
      unfold sender_test in Hs. cbv zeta in Hs.
      destruct (to_sol (q - p) <? 0)%float; [|reflexivity].
      rewrite (int_truediv_to_sol _ (u64_abs _ Hfee)). simpl.
      simpl in Hs. rewrite Hs. reflexivity. }
    destruct (i =? idx)%nat eqn:Ei;
      [|destruct (sender_test fee_lamports bc p q) eqn:Et].
    2:{ (* the head qualifies *)
      left. destruct (@index_in_range _ keys i) as (key & Hk & Hix); [lia|].
      exists 0%nat, p, q, key. rewrite Nat.add_0_r.
      repeat split; try assumption.
      - apply Nat.eqb_neq. exact Ei.
      - intros j' p' q' Hj. lia.
      - simpl. rewrite Ei.
        rewrite (int_truediv_to_sol _ (u64_diff p q Hp Hq)). simpl.
        unfold sender_test in Et. cbv zeta in Et.
        apply andb_true_iff in Et. destruct Et as [Et1 Et2].
        rewrite Et1. rewrite (int_truediv_to_sol _ (u64_abs _ Hfee)). simpl.
        rewrite Et2. rewrite Hix. reflexivity. }
    all: rewrite Hskip by (first [left; reflexivity | right; reflexivity]).
    all: destruct (IH (S i) Hrest ltac:(lia))
           as [(j & p' & q' & key & Hn & Hne & Ht & Hmin & Hk & Hres) | [Hall Hres]].
    all: try (left; exists (S j), p', q', key;
              replace (i + S j)%nat with (S i + j)%nat by lia;
              repeat split; try assumption;
              intros [|j'] p'' q'' Hj Hn';
              [ injection Hn' as <- <-; rewrite Nat.add_0_r;
                first [ left; apply Nat.eqb_eq; assumption | right; assumption ]
              | replace (i + S j')%nat with (S i + j')%nat by lia;
                apply (Hmin j' p'' q''); [lia | exact Hn'] ]).
    all: right; split; [|exact Hres];
         intros [|j'] p'' q'' Hn';
         [ injection Hn' as <- <-; rewrite Nat.add_0_r;
           first [ left; apply Nat.eqb_eq; assumption | right; assumption ]
         | replace (i + S j')%nat with (S i + j')%nat by lia;
           apply (Hall j' p'' q''); exact Hn' ].
Qed.

(** The recipient loop does not raise on a well-formed record. *)
Lemma find_recipient_total (keys : list AccountKey) (idx : nat) (bc : float)
    (balances : list (Z * Z)) :
  forall i : nat,
  Forall pair_ok balances ->
  (i + List.length balances <= List.length keys)%nat ->
  exists r, find_recipient keys idx bc i balances = Ok r.
Proof.
  induction balances as [|[p q] rest IH]; intros i Hok Hlen.
  - exists None. reflexivity.
  - inversion Hok as [|x l [Hp Hq] Hrest]; subst. simpl in Hp, Hq, Hlen.
    simpl. destruct (i =? idx)%nat; [apply IH; [exact Hrest | lia]|].
    rewrite (int_truediv_to_sol _ (u64_diff p q Hp Hq)). simpl.
    destruct ((0 <? to_sol (q - p))%float && _).
    + destruct (@index_in_range _ keys i) as (key & _ & Hix); [lia|].
      rewrite Hix. eexists. reflexivity.
    + apply IH; [exact Hrest | lia].
Qed.

(** Neither does the instruction loop. *)
Lemma describe_total (treasury : string) (instrs : list Instruction) :
  forallb instr_ok instrs = true ->
  forall d0, exists d, describe treasury instrs d0 = Ok d.
Proof.
  induction instrs as [|instr rest IH]; intros Hok d0.
  - exists d0. reflexivity.
  - simpl in Hok. apply andb_true_iff in Hok. destruct Hok as [Hi Hrest].
    simpl. unfold instr_ok in Hi.
    destruct (instr_parsed instr) as [parsed|]; [|apply IH; exact Hrest].
    destruct (opt_str_eqb (instr_program instr) "system"
              && opt_str_eqb (parsed_type parsed) "transfer");
      [|apply IH; exact Hrest].
    assert (Hl : exists a,
      int_truediv
        match info_lamports
                match parsed_info parsed with
                | Some info => info
                | None => {| info_source := None; info_destination := None;
                             info_lamports := None |}
                end with
        | Some l => l
        | None => 0
        end LAMPORTS_PER_SOL = Ok a).
    { destruct (parsed_info parsed) as [info|]; simpl.
      - destruct (info_lamports info) as [l|].
        + eexists. apply int_truediv_to_sol. apply u64_abs. exact Hi.
        + eexists. apply int_truediv_to_sol. reflexivity.
      - eexists. apply int_truediv_to_sol. reflexivity. }
    destruct Hl as [a Ha]. rewrite Ha. simpl.
    destruct (opt_str_eqb _ treasury); [apply IH; exact Hrest|].
    destruct (opt_str_eqb _ treasury); apply IH; exact Hrest.
Qed.

End ExtractorTotal.

(** ** The transfer extractor on a well-formed record *)

Section ExtractorReports.

Variable tx : TxData.
Variable treasury : string.
Variable meta : Meta.
Variable idx : nat.
Variables pre post : Z.

Hypothesis Hwf : well_formed tx = true.
Hypothesis Hmeta : tx_meta tx = Some meta.
Hypothesis Hidx :
  find_treasury_index (accountKeys (message (tx_transaction tx))) treasury 0
  = Some idx.
Hypothesis Hpre : nth_error (preBalances meta) idx = Some pre.
Hypothesis Hpost : nth_error (postBalances meta) idx = Some post.

(** The balance change the extractor computes. *)
Definition computed_change (pre post : Z) : float :=
  (to_sol post - to_sol pre)%float.

Lemma well_formed_parts :
  List.length (accountKeys (message (tx_transaction tx)))
    = List.length (preBalances meta)
  /\ List.length (preBalances meta) = List.length (postBalances meta)
  /\ forallb u64 (preBalances meta) = true
  /\ forallb u64 (postBalances meta) = true
  /\ u64 (fee meta) = true
  /\ match instructions (message (tx_transaction tx)) with
     | Some instrs => forallb instr_ok instrs
     | None => true
     end = true
  /\ blockTime tx <> JNull
  /\ logMessages meta <> JNull
  /\ signatures (tx_transaction tx) <> [].
Proof.
  unfold well_formed in Hwf. rewrite Hmeta in Hwf.
  repeat (apply andb_true_iff in Hwf; destruct Hwf as [Hwf ?]).
  repeat split; try assumption.
  - apply Nat.eqb_eq. assumption.
  - apply Nat.eqb_eq. assumption.
  - destruct (blockTime tx); discriminate.
  - destruct (logMessages meta); discriminate.
  - destruct (signatures (tx_transaction tx)); discriminate.
Qed.

Lemma fromtimestamp_value (t t' : Z) : fromtimestamp t = Ok t' -> t' = t.
Proof.
  unfold fromtimestamp.
  destruct ((t <? TIME_T_MIN) || (TIME_T_MAX <? t)); [discriminate|].
  destruct ((t <? LOCALTIME_MIN) || (LOCALTIME_MAX <? t)); [discriminate|].
  destruct ((t <? DATETIME_MIN) || (DATETIME_MAX <? t)); [discriminate|].
  intros H. injection H as <-. reflexivity.
Qed.

Lemma format_timestamp_value (o : option Z) (formatted : local_time) :
  format_timestamp o = Ok formatted ->
  exists t, o = Some t /\ formatted = LocalTime t.
Proof.
  destruct o as [t|]; simpl; [|discriminate].
  destruct (fromtimestamp t) as [t'|e] eqn:E; simpl; [|discriminate].
  intros H. injection H as <-. apply fromtimestamp_value in E. subst t'.
  exists t. split; reflexivity.
Qed.

(** The block time of a well-formed record, and its rendering. *)
Lemma well_formed_time :
  exists ts, jget (blockTime tx) 0 = Some ts
             /\ format_timestamp (Some ts) = Ok (LocalTime ts).
Proof.
  unfold well_formed in Hwf. rewrite Hmeta in Hwf.
  repeat (apply andb_true_iff in Hwf; destruct Hwf as [Hwf ?]).
  match goal with H : block_time_ok _ = true |- _ => rename H into Hbt end.
  unfold block_time_ok in Hbt.
  destruct (format_timestamp (jget (blockTime tx) 0)) as [formatted|e] eqn:E;
    [|discriminate Hbt].
  destruct (format_timestamp_value _ _ E) as (t & Ht & ->).
  exists t. split; [exact Ht|]. rewrite <- Ht. exact E.
Qed.

Lemma forallb_nth (l : list Z) (i : nat) (z : Z) :
  forallb u64 l = true -> nth_error l i = Some z -> u64 z = true.
Proof.
  intros Hall Hn. rewrite forallb_forall in Hall. apply Hall.
  apply nth_error_In with i. exact Hn.
Qed.

Lemma combine_pair_ok (ps qs : list Z) :
  forallb u64 ps = true -> forallb u64 qs = true ->
  Forall pair_ok (combine ps qs).
Proof.
  revert qs. induction ps as [|p ps IH]; intros [|q qs] Hp Hq; simpl;
    try constructor.
  - simpl in Hp, Hq. apply andb_true_iff in Hp, Hq. split; tauto.
  - simpl in Hp, Hq. apply andb_true_iff in Hp, Hq. apply IH; tauto.
Qed.

(** Below or at the threshold the record is dropped. *)
Lemma extract_drops :
  (DUST_EPSILON <? abs (computed_change pre post))%float = false ->
  extract_sol_transfers (Some tx) treasury = Ok None.
Proof.
  intros Hd. destruct well_formed_parts as (_ & _ & Hp & Hq & _).
  unfold extract_sol_transfers. rewrite Hmeta. cbv zeta.
  rewrite Hidx, Hpre, Hpost.
  rewrite (int_truediv_to_sol _ (u64_abs _ (forallb_nth _ _ _ Hp Hpre))).
  rewrite (int_truediv_to_sol _ (u64_abs _ (forallb_nth _ _ _ Hq Hpost))).
  simpl. unfold computed_change in Hd. rewrite Hd. reflexivity.
Qed.

(** Above it a transfer is returned, with the computed change and the
    counterparty the loop found. *)
Lemma extract_reports :
  (DUST_EPSILON <? abs (computed_change pre post))%float = true ->
  exists r d ts sig,
    (if (0 <? computed_change pre post)%float
     then find_sender (accountKeys (message (tx_transaction tx))) (fee meta)
            idx (computed_change pre post) 0
            (combine (preBalances meta) (postBalances meta))
     else find_recipient (accountKeys (message (tx_transaction tx)))
            idx (computed_change pre post) 0
            (combine (preBalances meta) (postBalances meta))) = Ok r
    /\ jget (blockTime tx) 0 = Some ts
    /\ nth_error (signatures (tx_transaction tx)) 0 = Some sig
    /\ match instructions (message (tx_transaction tx)) with
       | None => Ok NoDescription
       | Some instrs => describe treasury instrs NoDescription
       end = Ok d
    /\ extract_sol_transfers (Some tx) treasury
       = Ok (Some {|
           timestamp := ts;
           formatted_time := LocalTime ts;
           signature := sig;
           balance_change := computed_change pre post;
           counterparty := or_unknown r;
           is_system_transfer :=
             match logMessages meta with
             | JVal log_messages => scan_logs log_messages
             | _ => false
             end;
           description := d |}).
Proof.
  intros Hd.
  destruct well_formed_parts
    as (Hl1 & Hl2 & Hp & Hq & Hfee & Hins & Htime & Hlogs & Hsigs).
  assert (Hcomb : (0 + List.length (combine (preBalances meta) (postBalances meta))
                   <= List.length (accountKeys (message (tx_transaction tx))))%nat)
    by (rewrite length_combine; lia).
  pose proof (combine_pair_ok _ _ Hp Hq) as Hpairs.
  assert (Hcp : exists r,
    (if (0 <? computed_change pre post)%float
     then find_sender (accountKeys (message (tx_transaction tx))) (fee meta)
            idx (computed_change pre post) 0
            (combine (preBalances meta) (postBalances meta))
     else find_recipient (accountKeys (message (tx_transaction tx)))
            idx (computed_change pre post) 0
            (combine (preBalances meta) (postBalances meta))) = Ok r).
  { destruct (0 <? computed_change pre post)%float.
    - destruct (find_sender_spec (accountKeys (message (tx_transaction tx)))
                  (fee meta) idx (computed_change pre post) _ Hfee 0%nat
                  Hpairs Hcomb)
        as [(j & p' & q' & key & _ & _ & _ & _ & _ & Hres) | [_ Hres]];
        eexists; exact Hres.
    - apply find_recipient_total; assumption. }
  destruct Hcp as [r Hr].
  assert (Hdesc : exists d,
    match instructions (message (tx_transaction tx)) with
    | None => Ok NoDescription
    | Some instrs => describe treasury instrs NoDescription
    end = Ok d).
  { destruct (instructions (message (tx_transaction tx))) as [instrs|].
    - apply describe_total. exact Hins.
    - eexists. reflexivity. }
  destruct Hdesc as [d Hdesc].
  destruct well_formed_time as (ts & Hts & Hfmt).
  assert (Hsg : exists sig, nth_error (signatures (tx_transaction tx)) 0 = Some sig).
  { destruct (signatures (tx_transaction tx)) as [|sg ?];
      [contradiction | eexists; reflexivity]. }
  destruct Hsg as [sg Hsg].
  exists r, d, ts, sg. repeat split; try assumption.
  unfold extract_sol_transfers. rewrite Hmeta. cbv zeta.
  rewrite Hidx, Hpre, Hpost.
  rewrite (int_truediv_to_sol _ (u64_abs _ (forallb_nth _ _ _ Hp Hpre))).
  rewrite (int_truediv_to_sol _ (u64_abs _ (forallb_nth _ _ _ Hq Hpost))).
  cbn [bind]. unfold computed_change in *. rewrite Hd, Hr. cbn [bind].
  assert (Hrest :
    bind (match instructions (message (tx_transaction tx)) with
          | None => Ok NoDescription
          | Some instrs => describe treasury instrs NoDescription
          end)
      (fun descr =>
         bind (format_timestamp (jget (blockTime tx) 0))
           (fun formatted =>
              bind (index (signatures (tx_transaction tx)) 0)
                (fun sig => Ok (Some {|
                   timestamp := match jget (blockTime tx) 0 with
                                | Some t => t
                                | None => 0
                                end;
                   formatted_time := formatted;
                   signature := sig;
                   balance_change := (to_sol post - to_sol pre)%float;
                   counterparty := or_unknown r;
                   is_system_transfer :=
                     match logMessages meta with
                     | JVal log_messages => scan_logs log_messages
                     | _ => false
                     end;
                   description := descr |}))))
    = Ok (Some {|
        timestamp := ts;
        formatted_time := LocalTime ts;
        signature := sg;
        balance_change := (to_sol post - to_sol pre)%float;
        counterparty := or_unknown r;
        is_system_transfer :=
          match logMessages meta with
          | JVal log_messages => scan_logs log_messages
          | _ => false
          end;
        description := d |})).
  { rewrite Hdesc, Hts, Hfmt. unfold index. rewrite Hsg. reflexivity. }
  destruct (logMessages meta); try contradiction; exact Hrest.
Qed.

End ExtractorReports.

(** ** The transfer extractor: the scenario of the specification *)

(** Tracked address [T], [account_keys = [T, A]], fee 5000, and the parsed
    system transfer of 250000000 lamports from [A] to [T]; the log is
    left open. *)
Definition scenario (logs : jfield (list string)) : TxData :=
  {| tx_meta := Some {| preBalances := [1000000000; 500000000];
                        postBalances := [1250000000; 250000000];
                        fee := 5000;
                        err := None;
                        logMessages := logs |};
     tx_transaction :=
       {| signatures := ["sig1"];
          message :=
            {| accountKeys := [KeyStr "T"; KeyStr "A"];
               instructions :=
                 Some [ {| instr_parsed :=
                             Some {| parsed_type := Some "transfer";
                                     parsed_info :=
                                       Some {| info_source := Some "A";
                                               info_destination := Some "T";
                                               info_lamports := Some 250000000 |} |};
                           instr_program := Some "system" |} ] |} |};
     blockTime := Absent |}.

Definition scenario_transfer (system : bool) : Transfer :=
  {| timestamp := 0;
     formatted_time := LocalTime 0;
     signature := "sig1";
     balance_change := 0.25%float;
     counterparty := "Unknown";
     is_system_transfer := system;
     description := ReceiveFrom 0.25%float (Some "A") |}.

(** On the scenario as given (no log), the extractor reports the amount
    0.25 but neither the counterparty [A] nor the system-transfer flag:
    the loss of [A] with the fee added, 0.249995, is below 0.25. *)
Lemma scenario_counterparty_unknown :
  extract_sol_transfers (Some (scenario Absent)) "T"
    = Ok (Some (scenario_transfer false))
  /\ String.eqb (counterparty (scenario_transfer false)) "A" = false
  /\ is_system_transfer (scenario_transfer false) = false
  /\ (abs (to_sol (250000000 - 500000000) + to_sol 5000) <? 0.25)%float = true.
Proof. repeat split; vm_compute; reflexivity. Qed.

(** C1 (amended). On the scenario, [extract_sol_transfers] returns a
    transfer with [balance_change = 0.25] and the description "Receive
    0.25 SOL from A"; its counterparty is "Unknown", and
    [is_system_transfer] is true exactly when a log line of the record
    mentions an invocation of the system program (false without a log). *)
Theorem scenario_extracted :
  extract_sol_transfers (Some (scenario Absent)) "T"
    = Ok (Some (scenario_transfer false))
  /\ forall log_messages : list string,
       extract_sol_transfers (Some (scenario (JVal log_messages))) "T"
       = Ok (Some (scenario_transfer (scan_logs log_messages))).
Proof.
  split; [vm_compute; reflexivity|].
  intros log_messages. vm_compute. reflexivity.
Qed.

(** ** The transfer extractor: records that are dropped *)

(** The shapes the extractor rejects before it computes anything: no
    record, no [meta], no key equal to the tracked address, or a balance
    sequence that stops before the tracked index. *)
Definition shape_rejected (tx_data : option TxData) (treasury : string) : bool :=
  match tx_data with
  | None => true
  | Some tx =>
      match tx_meta tx with
      | None => true
      | Some meta =>
          match find_treasury_index
                  (accountKeys (message (tx_transaction tx))) treasury 0 with
          | None => true
          | Some idx =>
              (List.length (preBalances meta) <=? idx)%nat
              || (List.length (postBalances meta) <=? idx)%nat
          end
      end
  end.

Definition lengths_mismatch (tx : TxData) : bool :=
  match tx_meta tx with
  | None => false
  | Some meta =>
      negb ((List.length (accountKeys (message (tx_transaction tx)))
               =? List.length (preBalances meta))%nat
            && (List.length (preBalances meta)
                  =? List.length (postBalances meta))%nat)
  end.

Definition bare_tx (keys : list AccountKey) (pre post : list Z)
    (fee_lamports : Z) (error : option string) : TxData :=
  {| tx_meta := Some {| preBalances := pre; postBalances := post;
                        fee := fee_lamports; err := error;
                        logMessages := Absent |};
     tx_transaction :=
       {| signatures := ["sig1"];
          message := {| accountKeys := keys; instructions := None |} |};
     blockTime := JVal 1700000000 |}.

(** Two keys for one balance: a transfer is returned. One key for two
    balances, the second a sender: [account_keys[1]] raises. *)
Definition more_keys : TxData :=
  bare_tx [KeyStr "T"; KeyStr "A"] [0] [1000000000] 5000 None.

Definition fewer_keys : TxData :=
  bare_tx [KeyStr "T"] [0; 2000000000] [1000000000; 0] 5000 None.

Lemma mismatch_not_dropped :
  lengths_mismatch more_keys = true
  /\ extract_sol_transfers (Some more_keys) "T"
     = Ok (Some {| timestamp := 1700000000;
                   formatted_time := LocalTime 1700000000;
                   signature := "sig1";
                   balance_change := 1%float;
                   counterparty := "Unknown";
                   is_system_transfer := false;
                   description := NoDescription |})
  /\ lengths_mismatch fewer_keys = true
  /\ extract_sol_transfers (Some fewer_keys) "T" = Raise IndexError.
Proof. repeat split; vm_compute; reflexivity. Qed.

(** C9 (amended). A record that is missing, has no [meta], has no account
    key equal to the tracked address, or whose [pre_balances] or
    [post_balances] has no entry at the tracked index, is dropped:
    [extract_sol_transfers] returns none and raises nothing. (The lengths
    of the three sequences are not compared otherwise.) *)
Theorem rejected_shapes_dropped (tx_data : option TxData) (treasury : string) :
  shape_rejected tx_data treasury = true ->
  extract_sol_transfers tx_data treasury = Ok None.
Proof.
  unfold shape_rejected, extract_sol_transfers.
  destruct tx_data as [tx|]; [|reflexivity].
  destruct (tx_meta tx) as [meta|]; [|reflexivity]. cbv zeta.
  destruct (find_treasury_index _ treasury 0) as [idx|]; [|reflexivity].
  intros H. apply orb_true_iff in H. destruct H as [H|H];
    apply Nat.leb_le, nth_error_None in H; rewrite H.
  - reflexivity.
  - destruct (nth_error (preBalances meta) idx); reflexivity.
Qed.

Definition no_meta : TxData :=
  {| tx_meta := None;
     tx_transaction :=
       {| signatures := ["sig1"];
          message := {| accountKeys := [KeyStr "T"]; instructions := None |} |};
     blockTime := JNull |}.

Lemma rejected_shapes_dropped_witness :
  extract_sol_transfers (Some no_meta) "T" = Ok None.
Proof.
  apply (rejected_shapes_dropped (Some no_meta) "T"). reflexivity.
Defined.

Example short_balances_dropped :
  extract_sol_transfers
    (Some (bare_tx [KeyStr "A"; KeyStr "T"] [7] [7; 9] 5000 None)) "T" = Ok None.
Proof. reflexivity. Qed.

(** ** The transfer extractor: the dust filter *)

(** A gain of exactly 1000 lamports, i.e. 10^-6 SOL, is dropped. *)
Definition thousand_lamports : TxData :=
  bare_tx [KeyStr "T"; KeyStr "A"] [0; 1000000] [1000; 994000] 5000 None.

Lemma exact_threshold_dropped :
  well_formed thousand_lamports = true
  /\ Z.abs (1000 - 0) * 1000000 = LAMPORTS_PER_SOL
  /\ (DUST_EPSILON <=? abs (computed_change 0 1000))%float = true
  /\ extract_sol_transfers (Some thousand_lamports) "T" = Ok None.
Proof. repeat split; vm_compute; reflexivity. Qed.

(** C4 (amended). For a well-formed record that contains the tracked
    address, with [change] the float [post / 1e9 - pre / 1e9] at the
    tracked index: [extract_sol_transfers] returns none when [abs(change)]
    does not exceed 1e-6 (so also at exactly 1e-6), in particular when
    the two balances are equal; and when [abs(change)] exceeds 1e-6 the
    record is not dropped: a transfer with that change is returned. *)
Theorem dust_filter (tx : TxData) (treasury : string) (meta : Meta)
    (idx : nat) (pre post : Z) :
  well_formed tx = true ->
  tx_meta tx = Some meta ->
  find_treasury_index (accountKeys (message (tx_transaction tx))) treasury 0
    = Some idx ->
  nth_error (preBalances meta) idx = Some pre ->
  nth_error (postBalances meta) idx = Some post ->
  ((abs (computed_change pre post) <=? DUST_EPSILON)%float = true ->
     extract_sol_transfers (Some tx) treasury = Ok None)
  /\ ((DUST_EPSILON <? abs (computed_change pre post))%float = false ->
     extract_sol_transfers (Some tx) treasury = Ok None)
  /\ (post = pre -> extract_sol_transfers (Some tx) treasury = Ok None)
  /\ ((DUST_EPSILON <? abs (computed_change pre post))%float = true ->
     exists tr, extract_sol_transfers (Some tx) treasury = Ok (Some tr)
                /\ balance_change tr = computed_change pre post).
Proof.
  intros Hwf Hmeta Hidx Hpre Hpost.
  pose proof (extract_drops tx treasury meta idx pre post
                Hwf Hmeta Hidx Hpre Hpost) as Hdrop.
  repeat split.
  - intros Hle. apply Hdrop. apply leb_not_ltb. exact Hle.
  - exact Hdrop.
  - intros ->. apply Hdrop. apply sub_self_dust.
  - intros Hgt.
    destruct (extract_reports tx treasury meta idx pre post
                Hwf Hmeta Hidx Hpre Hpost Hgt)
      as (r & d & ts & sg & _ & _ & _ & _ & Hres).
    eexists. split; [exact Hres | reflexivity].
Qed.

Lemma dust_filter_witness :
  ((abs (computed_change 0 1000) <=? DUST_EPSILON)%float = true ->
     extract_sol_transfers (Some thousand_lamports) "T" = Ok None)
  /\ ((DUST_EPSILON <? abs (computed_change 0 1000))%float = false ->
     extract_sol_transfers (Some thousand_lamports) "T" = Ok None)
  /\ (1000 = 0 -> extract_sol_transfers (Some thousand_lamports) "T" = Ok None)
  /\ ((DUST_EPSILON <? abs (computed_change 0 1000))%float = true ->
     exists tr, extract_sol_transfers (Some thousand_lamports) "T" = Ok (Some tr)
                /\ balance_change tr = computed_change 0 1000).
Proof.
  apply (dust_filter thousand_lamports "T"
           {| preBalances := [0; 1000000]; postBalances := [1000; 994000];
              fee := 5000; err := None; logMessages := Absent |} 0 0 1000);
    reflexivity.
Defined.

Example scenario_equal_balances :
  extract_sol_transfers
    (Some (bare_tx [KeyStr "T"; KeyStr "A"] [1000000000; 500000000]
             [1000000000; 250000000] 5000 None)) "T" = Ok None.
Proof. vm_compute. reflexivity. Qed.

(** ** The transfer extractor: the status of the transaction *)

Definition with_err (error : option string) (tx : TxData) : TxData :=
  {| tx_meta :=
       match tx_meta tx with
       | Some meta =>
           Some {| preBalances := preBalances meta;
                   postBalances := postBalances meta;
                   fee := fee meta;
                   err := error;
                   logMessages := logMessages meta |}
       | None => None
       end;
     tx_transaction := tx_transaction tx;
     blockTime := blockTime tx |}.

(** A failed transaction whose fee the tracked account paid. *)
Definition failed_fee_only : TxData :=
  bare_tx [KeyStr "T"; KeyStr "B"] [1000000000; 500] [999995000; 500] 5000
    (Some "InstructionError").

(** C10. [extract_sol_transfers] never reads the status of the
    transaction: changing [meta.err] changes nothing in its result. So a
    failed transaction yields a transfer whenever the tracked balance
    moved by more than the dust threshold; when the tracked account paid
    the fee of a failed transaction, the fee of 5000 lamports alone is
    reported as an outgoing transfer (negative change, above 1e-6 in
    absolute value) to "Unknown". *)
Theorem extract_ignores_status :
  (forall (tx : TxData) (treasury : string) (error : option string),
      extract_sol_transfers (Some (with_err error tx)) treasury
      = extract_sol_transfers (Some tx) treasury)
  /\ extract_sol_transfers (Some failed_fee_only) "T"
     = Ok (Some {| timestamp := 1700000000;
                   formatted_time := LocalTime 1700000000;
                   signature := "sig1";
                   balance_change := computed_change 1000000000 999995000;
                   counterparty := "Unknown";
                   is_system_transfer := false;
                   description := NoDescription |})
  /\ (computed_change 1000000000 999995000 <? 0)%float = true
  /\ (DUST_EPSILON <? abs (computed_change 1000000000 999995000))%float = true.
Proof.
  split; [|repeat split; vm_compute; reflexivity].
  intros tx treasury error. unfold extract_sol_transfers, with_err.
  destruct (tx_meta tx) as [meta|]; reflexivity.
Qed.

(** ** The transfer extractor: the counterparty of an incoming transfer *)

(** The rule as the specification words it: the fee is added back to the
    loss of the fee payer only. *)
Definition claimed_sender_test (is_fee_payer : bool) (fee_lamports : Z)
    (balance_change : float) (pre post : Z) : bool :=
  let change := to_sol (post - pre) in
  ((change <? 0)
   && (abs balance_change
         <=? abs (if is_fee_payer then change + to_sol fee_lamports
                  else change)))%float.

Fixpoint claimed_sender (keys : list AccountKey) (fee_lamports : Z)
    (fee_payer idx : nat) (balance_change : float)
    (i : nat) (balances : list (Z * Z)) : string :=
  match balances with
  | [] => "unknown"
  | (pre, post) :: rest =>
      if negb (i =? idx)%nat
         && claimed_sender_test (i =? fee_payer)%nat fee_lamports
              balance_change pre post
      then match nth_error keys i with
           | Some key => match key_address key with
                         | Some a => a
                         | None => "unknown"
                         end
           | None => "unknown"
           end
      else claimed_sender keys fee_lamports fee_payer idx balance_change
             (S i) rest
  end.

(** [P] pays the fee of a transfer of 0.25 SOL from [A] to [T]. *)
Definition third_party_fee : TxData :=
  bare_tx [KeyStr "P"; KeyStr "T"; KeyStr "A"]
    [1000000; 0; 500000000] [995000; 250000000; 250000000] 5000 None.

(** By the worded rule, with the first account as fee payer, the sender
    is [A]; the extractor, which adds the fee to every candidate's loss,
    finds nobody. *)
Lemma third_party_fee_unknown :
  well_formed third_party_fee = true
  /\ claimed_sender [KeyStr "P"; KeyStr "T"; KeyStr "A"] 5000 0 1
       (computed_change 0 250000000) 0
       (combine [1000000; 0; 500000000] [995000; 250000000; 250000000])
     = "A"
  /\ extract_sol_transfers (Some third_party_fee) "T"
     = Ok (Some {| timestamp := 1700000000;
                   formatted_time := LocalTime 1700000000;
                   signature := "sig1";
                   balance_change := 0.25%float;
                   counterparty := "Unknown";
                   is_system_transfer := false;
                   description := NoDescription |}).
Proof. repeat split; vm_compute; reflexivity. Qed.

(** The test of the sender loop at position [i] of the record. *)
Definition sender_qualifies (meta : Meta) (idx : nat) (bc : float)
    (i : nat) : bool :=
  negb (i =? idx)%nat
  && match nth_error (combine (preBalances meta) (postBalances meta)) i with
     | Some (p, q) => sender_test (fee meta) bc p q
     | None => false
     end.

(** C2 (amended). For an incoming transfer of a well-formed record, the
    counterparty reported is the address of the first account, in
    ascending index order and other than the tracked one, whose own
    balance change is negative and whose change with the network fee
    added (for every candidate, fee payer or not) is at least the tracked
    change in absolute value; it is "Unknown" when no account qualifies
    (or when the key found carries no address). *)
Theorem incoming_counterparty_first_match (tx : TxData) (treasury : string)
    (meta : Meta) (idx : nat) (pre post : Z) :
  well_formed tx = true ->
  tx_meta tx = Some meta ->
  find_treasury_index (accountKeys (message (tx_transaction tx))) treasury 0
    = Some idx ->
  nth_error (preBalances meta) idx = Some pre ->
  nth_error (postBalances meta) idx = Some post ->
  (DUST_EPSILON <? abs (computed_change pre post))%float = true ->
  (0 <? computed_change pre post)%float = true ->
  exists tr,
    extract_sol_transfers (Some tx) treasury = Ok (Some tr)
    /\ balance_change tr = computed_change pre post
    /\ ((exists i key,
            sender_qualifies meta idx (computed_change pre post) i = true
            /\ (forall j, (j < i)%nat ->
                  sender_qualifies meta idx (computed_change pre post) j = false)
            /\ nth_error (accountKeys (message (tx_transaction tx))) i = Some key
            /\ counterparty tr = or_unknown (key_address key))
        \/ ((forall i,
               sender_qualifies meta idx (computed_change pre post) i = false)
            /\ counterparty tr = "Unknown")).
Proof.
  intros Hwf Hmeta Hidx Hpre Hpost Hdust Hin.
  destruct (extract_reports tx treasury meta idx pre post
              Hwf Hmeta Hidx Hpre Hpost Hdust)
    as (r & d & ts & sg & Hr & _ & _ & _ & Hres).
  rewrite Hin in Hr.
  destruct (well_formed_parts tx meta Hwf Hmeta)
    as (Hl1 & Hl2 & Hp & Hq & Hfee & _).
  eexists. split; [exact Hres|]. split; [reflexivity|]. simpl.
  destruct (find_sender_spec (accountKeys (message (tx_transaction tx)))
              (fee meta) idx (computed_change pre post)
              (combine (preBalances meta) (postBalances meta)) Hfee 0%nat
              (combine_pair_ok _ _ Hp Hq)
              ltac:(rewrite length_combine; lia))
    as [(j & p & q & key & Hn & Hne & Ht & Hmin & Hk & Hfound) | [Hall Hnone]].
  - left. exists j, key. rewrite Hfound in Hr. injection Hr as <-.
    simpl in Hne, Hk. unfold sender_qualifies. repeat split.
    + rewrite Hn, Ht. apply Nat.eqb_neq in Hne. rewrite Hne. reflexivity.
    + intros j' Hj.
      destruct (nth_error (combine (preBalances meta) (postBalances meta)) j')
        as [[p' q']|] eqn:En; [|apply andb_false_r].
      destruct (Hmin j' p' q' Hj En) as [He|He].
      * simpl in He. apply Nat.eqb_eq in He. rewrite He. reflexivity.
      * rewrite He. apply andb_false_r.
    + exact Hk.
  - right. rewrite Hnone in Hr. injection Hr as <-. split; [|reflexivity].
    intros i. unfold sender_qualifies.
    destruct (nth_error (combine (preBalances meta) (postBalances meta)) i)
      as [[p' q']|] eqn:En; [|apply andb_false_r].
    destruct (Hall i p' q' En) as [He|He].
    + simpl in He. apply Nat.eqb_eq in He. rewrite He. reflexivity.
    + rewrite He. apply andb_false_r.
Qed.

Definition fee_paying_sender : TxData :=
  bare_tx [KeyStr "A"; KeyStr "T"] [2000000000; 0] [999995000; 750000000]
    5000 None.

Lemma incoming_counterparty_first_match_witness :
  exists tr,
    extract_sol_transfers (Some fee_paying_sender) "T" = Ok (Some tr)
    /\ balance_change tr = computed_change 0 750000000
    /\ ((exists i key,
            sender_qualifies
              {| preBalances := [2000000000; 0];
                 postBalances := [999995000; 750000000];
                 fee := 5000; err := None; logMessages := Absent |}
              1 (computed_change 0 750000000) i = true
            /\ (forall j, (j < i)%nat ->
                  sender_qualifies
                    {| preBalances := [2000000000; 0];
                       postBalances := [999995000; 750000000];
                       fee := 5000; err := None; logMessages := Absent |}
                    1 (computed_change 0 750000000) j = false)
            /\ nth_error
                 (accountKeys (message (tx_transaction fee_paying_sender))) i
               = Some key
            /\ counterparty tr = or_unknown (key_address key))
        \/ ((forall i,
               sender_qualifies
                 {| preBalances := [2000000000; 0];
                    postBalances := [999995000; 750000000];
                    fee := 5000; err := None; logMessages := Absent |}
                 1 (computed_change 0 750000000) i = false)
            /\ counterparty tr = "Unknown")).
Proof.
  apply (incoming_counterparty_first_match fee_paying_sender "T"
           {| preBalances := [2000000000; 0];
              postBalances := [999995000; 750000000];
              fee := 5000; err := None; logMessages := Absent |} 1 0 750000000);
    vm_compute; reflexivity.
Defined.

Example fee_paying_sender_found :
  extract_sol_transfers (Some fee_paying_sender) "T"
  = Ok (Some {| timestamp := 1700000000;
                formatted_time := LocalTime 1700000000;
                signature := "sig1";
                balance_change := 0.75%float;
                counterparty := "A";
                is_system_transfer := false;
                description := NoDescription |}).
Proof. vm_compute. reflexivity. Qed.

(** ** The transfer extractor: parsed instructions *)

Definition with_instructions (instrs : option (list Instruction))
    (tx : TxData) : TxData :=
  {| tx_meta := tx_meta tx;
     tx_transaction :=
       {| signatures := signatures (tx_transaction tx);
          message :=
            {| accountKeys := accountKeys (message (tx_transaction tx));
               instructions := instrs |} |};
     blockTime := blockTime tx |}.

Definition with_description (d : Description) (t : Transfer) : Transfer :=
  {| timestamp := timestamp t;
     formatted_time := formatted_time t;
     signature := signature t;
     balance_change := balance_change t;
     counterparty := counterparty t;
     is_system_transfer := is_system_transfer t;
     description := d |}.

(** A parsed transfer of the system program. *)
Definition system_transfer (source destination : option string)
    (lamports : Z) : Instruction :=
  {| instr_parsed :=
       Some {| parsed_type := Some "transfer";
               parsed_info := Some {| info_source := source;
                                      info_destination := destination;
                                      info_lamports := Some lamports |} |};
     instr_program := Some "system" |}.

(** [A] sends 0.25 SOL to [T] by a system transfer, and 0.5 SOL more to
    [T] and 0.25 SOL to [B] otherwise; [A] pays the fee. *)
Definition partly_parsed : TxData :=
  with_instructions
    (Some [system_transfer (Some "A") (Some "T") 250000000])
    (bare_tx [KeyStr "A"; KeyStr "T"; KeyStr "B"] [2000000000; 0; 0]
       [999995000; 750000000; 250000000] 5000 None).

(** The instruction names the tracked address and the counterparty the
    heuristic finds, yet the amount returned is the balance change, 0.75,
    and not the instruction's 0.25, which only reaches the description. *)
Lemma instruction_amount_not_used :
  extract_sol_transfers (Some partly_parsed) "T"
  = Ok (Some {| timestamp := 1700000000;
                formatted_time := LocalTime 1700000000;
                signature := "sig1";
                balance_change := 0.75%float;
                counterparty := "A";
                is_system_transfer := false;
                description := ReceiveFrom 0.25%float (Some "A") |})
  /\ to_sol 250000000 = 0.25%float
  /\ (0.75 =? to_sol 250000000)%float = false.
Proof. repeat split; vm_compute; reflexivity. Qed.

Lemma describe_app (treasury : string) (l1 l2 : list Instruction) :
  forall d0,
  describe treasury (l1 ++ l2) d0
  = bind (describe treasury l1 d0) (fun d1 => describe treasury l2 d1).
Proof.
  induction l1 as [|instr l1 IH]; intros d0; [reflexivity|].
  simpl. destruct (instr_parsed instr) as [parsed|]; [|apply IH].
  destruct (opt_str_eqb (instr_program instr) "system"
            && opt_str_eqb (parsed_type parsed) "transfer"); [|apply IH].
  destruct (int_truediv _ LAMPORTS_PER_SOL) as [a|e]; [|reflexivity]. simpl.
  destruct (opt_str_eqb _ treasury); [apply IH|].
  destruct (opt_str_eqb _ treasury); apply IH.
Qed.

(** What one round of the instruction loop assigns to [description], if
    anything: for a parsed "transfer" of the "system" program, the
    "Transfer ... to" text when its source is the treasury, else the
    "Receive ... from" text when its destination is; the amount is the
    instruction's lamports (0 when missing) over 1e9. *)
Definition instruction_description (treasury_address : string)
    (instr : Instruction) : option Description :=
  match instr_parsed instr with
  | Some parsed =>
      if opt_str_eqb (instr_program instr) "system"
         && opt_str_eqb (parsed_type parsed) "transfer" then
        let transfer_info :=
          match parsed_info parsed with
          | Some info => info
          | None => {| info_source := None; info_destination := None;
                       info_lamports := None |}
          end in
        let amount :=
          to_sol match info_lamports transfer_info with
                 | Some l => l
                 | None => 0
                 end in
        if opt_str_eqb (info_source transfer_info) treasury_address then
          Some (TransferTo amount (info_destination transfer_info))
        else if opt_str_eqb (info_destination transfer_info) treasury_address
        then Some (ReceiveFrom amount (info_source transfer_info))
        else None
      else None
  | None => None
  end.

(** One round of the loop of [describe]. *)
Lemma describe_cons (treasury : string) (instr : Instruction)
    (rest : list Instruction) (d0 : Description) :
  instr_ok instr = true ->
  describe treasury (instr :: rest) d0
  = describe treasury rest
      match instruction_description treasury instr with
      | Some d => d
      | None => d0
      end.
Proof.
  intros Hi. cbn [describe]. unfold instruction_description, instr_ok in *.
  destruct (instr_parsed instr) as [parsed|]; [|reflexivity].
  destruct (opt_str_eqb (instr_program instr) "system"
            && opt_str_eqb (parsed_type parsed) "transfer"); [|reflexivity].
  cbv zeta.
  assert (Hl : int_truediv
                 match info_lamports
                         match parsed_info parsed with
                         | Some info => info
                         | None => {| info_source := None;
                                      info_destination := None;
                                      info_lamports := None |}
                         end with
                 | Some l => l
                 | None => 0
                 end LAMPORTS_PER_SOL
               = Ok (to_sol
                       match info_lamports
                               match parsed_info parsed with
                               | Some info => info
                               | None => {| info_source := None;
                                            info_destination := None;
                                            info_lamports := None |}
                               end with
                       | Some l => l
                       | None => 0
                       end)).
  { apply int_truediv_to_sol.
    destruct (parsed_info parsed) as [info|]; cbn [info_lamports];
      [|simpl; unfold U64; lia].
    destruct (info_lamports info) as [l|]; [|simpl; unfold U64; lia].
    apply u64_abs. exact Hi. }
  rewrite Hl. cbn [bind].
  destruct (opt_str_eqb _ treasury); [reflexivity|].
  destruct (opt_str_eqb _ treasury); reflexivity.
Qed.

(** Instructions that assign nothing leave the description as it is. *)
Lemma describe_unchanged (treasury : string) (instrs : list Instruction) :
  forallb instr_ok instrs = true ->
  Forall (fun instr => instruction_description treasury instr = None) instrs ->
  forall d0, describe treasury instrs d0 = Ok d0.
Proof.
  induction instrs as [|instr rest IH]; intros Hok Hnone d0; [reflexivity|].
  cbn [forallb] in Hok. apply andb_true_iff in Hok. destruct Hok as [Hi Hrest].
  inversion Hnone as [|x l Hx Hl]; subst.
  rewrite (describe_cons treasury instr rest d0 Hi), Hx.
  apply IH; assumption.
Qed.

(** The last instruction that assigns a description decides it, whatever
    stands before it and whatever unrelated instructions follow. *)
Lemma describe_last_match (treasury : string)
    (before after : list Instruction) (instr : Instruction)
    (d d0 : Description) :
  forallb instr_ok (before ++ instr :: after) = true ->
  instruction_description treasury instr = Some d ->
  Forall (fun later => instruction_description treasury later = None) after ->
  describe treasury (before ++ instr :: after) d0 = Ok d.
Proof.
  intros Hok Hd Hafter. rewrite forallb_app in Hok.
  apply andb_true_iff in Hok. destruct Hok as [Hb Hrest].
  cbn [forallb] in Hrest. apply andb_true_iff in Hrest.
  destruct Hrest as [Hi Ha].
  rewrite describe_app.
  destruct (describe_total treasury before Hb d0) as [d1 ->]. cbn [bind].
  rewrite (describe_cons treasury instr after d1 Hi), Hd.
  apply describe_unchanged; assumption.
Qed.

(** The description a parsed system transfer that names the treasury
    assigns. *)
Lemma system_transfer_description (treasury : string)
    (source destination : option string) (lamports : Z) :
  opt_str_eqb source treasury || opt_str_eqb destination treasury = true ->
  instruction_description treasury (system_transfer source destination lamports)
  = Some (if opt_str_eqb source treasury
          then TransferTo (to_sol lamports) destination
          else ReceiveFrom (to_sol lamports) source).
Proof.
  intros Hn. unfold instruction_description, system_transfer.
  cbn [instr_parsed instr_program parsed_type parsed_info info_source
       info_destination info_lamports].
  change (opt_str_eqb (Some "system") "system"
          && opt_str_eqb (Some "transfer") "transfer") with true.
  cbv iota zeta.
  destruct (opt_str_eqb source treasury); [reflexivity|].
  simpl in Hn. rewrite Hn. reflexivity.
Qed.

Lemma well_formed_with_instructions (tx : TxData) (instrs : list Instruction) :
  well_formed tx = true ->
  forallb instr_ok instrs = true ->
  well_formed (with_instructions (Some instrs) tx) = true.
Proof.
  unfold well_formed, with_instructions.
  cbn [tx_meta tx_transaction message accountKeys instructions signatures
       blockTime].
  destruct (tx_meta tx) as [meta|]; [|discriminate].
  intros Hwf Hok.
  repeat (apply andb_true_iff in Hwf; destruct Hwf as [Hwf ?]).
  repeat match goal with
         | Hx : ?b = true |- context [?b] => rewrite Hx
         end.
  reflexivity.
Qed.

(** C3 (amended). A parsed system-transfer instruction never replaces the
    amount or the counterparty: for a well-formed record above the dust
    threshold, whatever the instruction list is, the transfer returned
    keeps the balance change of the tracked account and the counterparty
    of the balance-delta heuristic, and only its description depends on
    the instructions. The description comes from the last parsed system
    transfer whose source or destination is the tracked address, wherever
    it stands in the list and whatever other instructions follow it, and
    carries that instruction's lamport amount and other endpoint; without
    such an instruction there is no description. *)
Theorem instructions_only_describe (tx : TxData) (treasury : string)
    (meta : Meta) (idx : nat) (pre post : Z) :
  well_formed tx = true ->
  tx_meta tx = Some meta ->
  find_treasury_index (accountKeys (message (tx_transaction tx))) treasury 0
    = Some idx ->
  nth_error (preBalances meta) idx = Some pre ->
  nth_error (postBalances meta) idx = Some post ->
  (DUST_EPSILON <? abs (computed_change pre post))%float = true ->
  exists base : Transfer,
    balance_change base = computed_change pre post
    /\ (forall instrs : list Instruction,
          forallb instr_ok instrs = true ->
          exists d,
            describe treasury instrs NoDescription = Ok d
            /\ extract_sol_transfers
                 (Some (with_instructions (Some instrs) tx)) treasury
               = Ok (Some (with_description d base)))
    /\ (forall (before after : list Instruction) (instr : Instruction)
               (d : Description),
          forallb instr_ok (before ++ instr :: after) = true ->
          instruction_description treasury instr = Some d ->
          Forall (fun later => instruction_description treasury later = None)
            after ->
          describe treasury (before ++ instr :: after) NoDescription = Ok d)
    /\ (forall instrs : list Instruction,
          forallb instr_ok instrs = true ->
          Forall (fun instr => instruction_description treasury instr = None)
            instrs ->
          describe treasury instrs NoDescription = Ok NoDescription)
    /\ (forall (source destination : option string) (lamports : Z),
          opt_str_eqb source treasury || opt_str_eqb destination treasury = true ->
          instruction_description treasury
            (system_transfer source destination lamports)
          = Some (if opt_str_eqb source treasury
                  then TransferTo (to_sol lamports) destination
                  else ReceiveFrom (to_sol lamports) source)).
Proof.
  intros Hwf Hmeta Hidx Hpre Hpost Hdust.
  destruct (extract_reports tx treasury meta idx pre post
              Hwf Hmeta Hidx Hpre Hpost Hdust)
    as (r & d0 & ts & sg & Hr & Hts & Hsg & _ & Hres).
  exists {| timestamp := ts;
            formatted_time := LocalTime ts;
            signature := sg;
            balance_change := computed_change pre post;
            counterparty := or_unknown r;
            is_system_transfer :=
              match logMessages meta with
              | JVal log_messages => scan_logs log_messages
              | _ => false
              end;
            description := d0 |}.
  split; [|split; [|split; [|split]]].
  2:{ intros instrs Hok.
      assert (Hwf' : well_formed (with_instructions (Some instrs) tx) = true).
      { apply well_formed_with_instructions; assumption. }
      destruct (extract_reports (with_instructions (Some instrs) tx) treasury
                  meta idx pre post Hwf' Hmeta Hidx Hpre Hpost Hdust)
        as (r' & d & ts' & sg' & Hr' & Hts' & Hsg' & Hd & Hres').
      cbn [with_instructions tx_meta tx_transaction message accountKeys
           instructions signatures blockTime] in Hr', Hts', Hsg', Hd.
      rewrite Hr in Hr'. injection Hr' as <-.
      rewrite Hts in Hts'. injection Hts' as <-.
      rewrite Hsg in Hsg'. injection Hsg' as <-.
      exists d. split; [exact Hd|]. rewrite Hres'. reflexivity. }
  - reflexivity.
  - intros before after instr d. apply describe_last_match.
  - intros instrs Hok Hnone. apply describe_unchanged; assumption.
  - intros source destination lamports. apply system_transfer_description.
Qed.

Lemma instructions_only_describe_witness :
  exists base : Transfer,
    balance_change base = computed_change 0 750000000
    /\ (forall instrs : list Instruction,
          forallb instr_ok instrs = true ->
          exists d,
            describe "T" instrs NoDescription = Ok d
            /\ extract_sol_transfers
                 (Some (with_instructions (Some instrs) partly_parsed)) "T"
               = Ok (Some (with_description d base)))
    /\ (forall (before after : list Instruction) (instr : Instruction)
               (d : Description),
          forallb instr_ok (before ++ instr :: after) = true ->
          instruction_description "T" instr = Some d ->
          Forall (fun later => instruction_description "T" later = None)
            after ->
          describe "T" (before ++ instr :: after) NoDescription = Ok d)
    /\ (forall instrs : list Instruction,
          forallb instr_ok instrs = true ->
          Forall (fun instr => instruction_description "T" instr = None)
            instrs ->
          describe "T" instrs NoDescription = Ok NoDescription)
    /\ (forall (source destination : option string) (lamports : Z),
          opt_str_eqb source "T" || opt_str_eqb destination "T" = true ->
          instruction_description "T"
            (system_transfer source destination lamports)
          = Some (if opt_str_eqb source "T"
                  then TransferTo (to_sol lamports) destination
                  else ReceiveFrom (to_sol lamports) source)).
Proof.
  apply (instructions_only_describe partly_parsed "T"
           {| preBalances := [2000000000; 0; 0];
              postBalances := [999995000; 750000000; 250000000];
              fee := 5000; err := None; logMessages := Absent |}
           1 0 750000000);
    vm_compute; reflexivity.
Defined.

(** Two transfers that name the treasury, the second followed by an
    instruction that is not parsed and by a transfer between others: the
    description is that of the second. *)
Example last_naming_instruction_describes :
  extract_sol_transfers
    (Some (with_instructions
             (Some [system_transfer (Some "A") (Some "T") 250000000;
                    system_transfer (Some "T") (Some "B") 100000000;
                    {| instr_parsed := None; instr_program := Some "spl-memo" |};
                    system_transfer (Some "A") (Some "B") 5])
             partly_parsed)) "T"
  = Ok (Some {| timestamp := 1700000000;
                formatted_time := LocalTime 1700000000;
                signature := "sig1";
                balance_change := 0.75%float;
                counterparty := "A";
                is_system_transfer := false;
                description := TransferTo (to_sol 100000000) (Some "B") |}).
Proof. vm_compute. reflexivity. Qed.

(** ** The order of the result *)

Section SortReverse.

Context {A : Type}.
Variable key : A -> Z.

(** [a] may stand before [b]: its key is not smaller. *)
Definition desc (a b : A) : Prop := key b <= key a.

Lemma insert_desc_perm (x : A) (l : list A) :
  Permutation (x :: l) (insert_desc key x l).
Proof.
  induction l as [|y l IH]; simpl.
  - apply Permutation_refl.
  - destruct (key y <=? key x).
    + apply Permutation_refl.
    + apply perm_trans with (y :: x :: l); [apply perm_swap|].
      apply perm_skip. exact IH.
Qed.

Lemma sort_reverse_perm (l : list A) : Permutation l (sort_reverse key l).
Proof.
  induction l as [|x l IH]; simpl.
  - apply perm_nil.
  - apply perm_trans with (x :: sort_reverse key l).
    + apply perm_skip. exact IH.
    + apply insert_desc_perm.
Qed.

Lemma insert_desc_hd (x y : A) (l : list A) :
  key x <= key y -> HdRel desc y l -> HdRel desc y (insert_desc key x l).
Proof.
  intros Hxy Hhd. destruct l as [|z l]; simpl.
  - constructor. exact Hxy.
  - destruct (key z <=? key x); constructor.
    + exact Hxy.
    + inversion Hhd; assumption.
Qed.

Lemma insert_desc_sorted (x : A) (l : list A) :
  Sorted desc l -> Sorted desc (insert_desc key x l).
Proof.
  induction l as [|y l IH]; intros Hs; simpl.
  - repeat constructor.
  - destruct (Z.leb_spec (key y) (key x)) as [Hle|Hgt].
    + constructor; [exact Hs|]. constructor. exact Hle.
    + inversion Hs as [|? ? Hs' Hhd]; subst. constructor.
      * apply IH. exact Hs'.
      * apply insert_desc_hd; [|exact Hhd]. unfold desc in *. lia.
Qed.

Lemma sort_reverse_sorted (l : list A) : Sorted desc (sort_reverse key l).
Proof.
  induction l as [|x l IH]; simpl.
  - constructor.
  - apply insert_desc_sorted. exact IH.
Qed.

Lemma sorted_adjacent (l : list A) :
  Sorted desc l ->
  forall i a b, nth_error l i = Some a -> nth_error l (S i) = Some b ->
                key b <= key a.
Proof.
  induction 1 as [|x l Hs IH Hhd]; intros i a b Ha Hb.
  - destruct i; discriminate Ha.
  - destruct i as [|i].
    + simpl in Ha, Hb. injection Ha as <-.
      destruct l as [|y l]; [discriminate Hb|].
      simpl in Hb. injection Hb as <-. inversion Hhd; assumption.
    + apply (IH i); assumption.
Qed.

(** Elements with one key come out in the order they came in. *)
Lemma insert_desc_stable (k : Z) (x : A) (l : list A) :
  filter (fun a => key a =? k) (insert_desc key x l)
  = filter (fun a => key a =? k) (x :: l).
Proof.
  induction l as [|y l IH]; [reflexivity|].
  simpl insert_desc. destruct (Z.leb_spec (key y) (key x)) as [Hle|Hgt];
    [reflexivity|].
  change (filter (fun a => key a =? k) (y :: insert_desc key x l))
    with (if key y =? k
          then y :: filter (fun a => key a =? k) (insert_desc key x l)
          else filter (fun a => key a =? k) (insert_desc key x l)).
  rewrite IH. simpl.
  destruct (Z.eqb_spec (key y) k) as [Hy|Hy];
    destruct (Z.eqb_spec (key x) k) as [Hx|Hx]; try reflexivity.
  lia.
Qed.

Lemma sort_reverse_stable (k : Z) (l : list A) :
  filter (fun a => key a =? k) (sort_reverse key l)
  = filter (fun a => key a =? k) l.
Proof.
  induction l as [|x l IH]; [reflexivity|].
  simpl sort_reverse. rewrite insert_desc_stable. simpl. rewrite IH.
  reflexivity.
Qed.

End SortReverse.

Definition transfer_at (ts : Z) (sig : string) (amount : float) : Transfer :=
  {| timestamp := ts;
     formatted_time := LocalTime ts;
     signature := sig;
     balance_change := amount;
     counterparty := "Unknown";
     is_system_transfer := false;
     description := NoDescription |}.

(** Two transfers of one block time keep the order of ingestion, whatever
    their signatures. *)
Lemma ties_keep_ingestion_order :
  transfers (finalize [transfer_at 100 "b" 1; transfer_at 100 "a" 1])
    = [transfer_at 100 "b" 1; transfer_at 100 "a" 1]
  /\ transfers (finalize [transfer_at 100 "a" 1; transfer_at 100 "b" 1])
    = [transfer_at 100 "a" 1; transfer_at 100 "b" 1]
  /\ String.eqb "a" "b" = false
  /\ sort_incoming
       [ {| in_signature := "b"; in_timestamp := None; in_amount := 1 |};
         {| in_signature := "a"; in_timestamp := Some 0; in_amount := 1 |} ]
     = [ {| in_signature := "b"; in_timestamp := None; in_amount := 1 |};
         {| in_signature := "a"; in_timestamp := Some 0; in_amount := 1 |} ].
Proof. repeat split; vm_compute; reflexivity. Qed.

(** C8 (amended). The transfer list is returned sorted by timestamp,
    newest first: it is a permutation of the ingested transfers, and each
    transfer's timestamp is at least that of the next one. Transfers with
    equal timestamps stay in the order of ingestion (the sort is stable
    and does not look at the signature). In examine_all_txs.py a missing
    timestamp sorts as 0; in get_sol_transfers.py a transfer always
    carries an integer timestamp. *)
Theorem finalize_newest_first (sol_transfers : list Transfer)
    (incoming_txs : list IncomingTx) :
  (Permutation sol_transfers (transfers (finalize sol_transfers))
   /\ (forall i a b,
         nth_error (transfers (finalize sol_transfers)) i = Some a ->
         nth_error (transfers (finalize sol_transfers)) (S i) = Some b ->
         timestamp a >= timestamp b)
   /\ (forall ts,
         filter (fun t => timestamp t =? ts) (transfers (finalize sol_transfers))
         = filter (fun t => timestamp t =? ts) sol_transfers))
  /\ (Permutation incoming_txs (sort_incoming incoming_txs)
      /\ (forall i a b,
            nth_error (sort_incoming incoming_txs) i = Some a ->
            nth_error (sort_incoming incoming_txs) (S i) = Some b ->
            incoming_key a >= incoming_key b)
      /\ (forall ts,
            filter (fun x => incoming_key x =? ts) (sort_incoming incoming_txs)
            = filter (fun x => incoming_key x =? ts) incoming_txs)
      /\ (forall x, in_timestamp x = None -> incoming_key x = 0)).
Proof.
  split; repeat split.
  - apply sort_reverse_perm.
  - intros i a b Ha Hb. apply Z.le_ge.
    exact (sorted_adjacent timestamp (sort_reverse timestamp sol_transfers)
             (sort_reverse_sorted timestamp sol_transfers) i a b Ha Hb).
  - intros ts. apply sort_reverse_stable.
  - apply sort_reverse_perm.
  - intros i a b Ha Hb. apply Z.le_ge.
    exact (sorted_adjacent incoming_key (sort_reverse incoming_key incoming_txs)
             (sort_reverse_sorted incoming_key incoming_txs) i a b Ha Hb).
  - intros ts. apply sort_reverse_stable.
  - intros x Hx. unfold incoming_key. rewrite Hx. reflexivity.
Qed.

(** ** Ingestion *)

(** A deposit of 0.5 SOL into the treasury wallet, and the transfer the
    extractor makes of it. *)
Definition deposit : TxData :=
  bare_tx [KeyStr "A"; KeyStr TREASURY_WALLET] [2000000000; 0]
    [1499995000; 500000000] 5000 None.

Definition deposit_transfer : Transfer :=
  {| timestamp := 1700000000;
     formatted_time := LocalTime 1700000000;
     signature := "sig1";
     balance_change := 0.5%float;
     counterparty := "A";
     is_system_transfer := false;
     description := NoDescription |}.



(* ===================================================================== *)
(** * Part III. Further properties of the scripts *)
(* ===================================================================== *)

(** ** The RPC client: bounds, exhaustion, and what a body returned means *)

Section RpcClientBounds.

Context {J : Type}.
Variable urls : list string.
Variable post : nat -> string -> http_outcome J.

(** From an attempt inside the list on: some number [n >= 1] of the
    remaining endpoints is contacted, in list order, and the call ends
    with a body or with [None]; the last endpoint contacted is the one
    that answered, the ones before it failed. *)
Lemma rpc_request_run (m a : nat) :
  (a + m = List.length urls - 1)%nat -> (a < List.length urls)%nat ->
  exists n : nat,
    (1 <= n <= List.length urls - a)%nat
    /\ snd (rpc_request urls post a) = firstn n (skipn a urls)
    /\ (forall i url, (a <= i < a + n - 1)%nat -> nth_error urls i = Some url ->
                      failed (post i url) = true)
    /\ ((fst (rpc_request urls post a) = Ok None
         /\ n = (List.length urls - a)%nat
         /\ forall url, nth_error urls (a + n - 1) = Some url ->
                        failed (post (a + n - 1)%nat url) = true)
        \/ exists body url,
             fst (rpc_request urls post a) = Ok (Some body)
             /\ nth_error urls (a + n - 1) = Some url
             /\ post (a + n - 1)%nat url = RpcResult body).
Proof.
  revert a. induction m as [|m IH]; intros a Hm Ha;
    destruct (nth_error_mod urls a Ha) as (url & _ & Hu);
    rewrite (rpc_request_step urls post a url Ha Hu),
            (skipn_nth_cons urls a url Hu).
  - (* the last endpoint *)
    assert (Hlt : (a <? List.length urls - 1)%nat = false)
      by (apply Nat.ltb_nlt; lia).
    rewrite Hlt. exists 1%nat.
    replace (a + 1 - 1)%nat with a by lia.
    destruct (post a url) eqn:Hp; simpl;
      (split; [lia|]); (split; [reflexivity|]); (split; [intros; lia|]).
    3: right; exists body, url; repeat split; assumption.
    all: left; repeat split; try lia.
    all: intros u Hu'; rewrite Hu in Hu'; injection Hu' as <-;
         rewrite Hp; reflexivity.
  - assert (Hlt : (a <? List.length urls - 1)%nat = true)
      by (apply Nat.ltb_lt; lia).
    rewrite Hlt.
    destruct (post a url) eqn:Hp.
    3:{ exists 1%nat. replace (a + 1 - 1)%nat with a by lia. simpl.
        split; [lia|]. split; [reflexivity|]. split; [intros; lia|].
        right. exists body, url. repeat split; assumption. }
    all: destruct (IH (S a) ltac:(lia) ltac:(lia))
           as (n & Hn & Htr & Hbefore & Hend).
    all: exists (S n); simpl fst; simpl snd.
    all: replace (a + S n - 1)%nat with (S a + n - 1)%nat by lia.
    all: split; [lia|]; split; [rewrite Htr; reflexivity|]; split.
    all: try (intros i u Hi Hnth; destruct (Nat.eq_dec i a) as [->|Hne];
              [ rewrite Hu in Hnth; injection Hnth as <-; rewrite Hp;
                reflexivity
              | apply Hbefore; [lia | exact Hnth] ]).
    all: destruct Hend as [(Hnone & Hall & Hlast) | (body' & u & Hsome & Hnth & Hok)];
         [ left; repeat split; [exact Hnone | lia | exact Hlast]
         | right; exists body', u; repeat split; assumption ].
Qed.

End RpcClientBounds.

Section RpcClientExtras.

Context {J : Type}.
Variable urls : list string.
Variable post : nat -> string -> http_outcome J.

(** With at least one endpoint configured, a call never raises, contacts
    at least one and at most [len(RPC_URLS)] endpoints, each at most once
    and in the configured order, and ends with a body or with [None]. *)
Theorem rpc_request_bounded :
  urls <> [] ->
  exists n : nat,
    (1 <= n <= List.length urls)%nat
    /\ snd (rpc_request urls post 0) = firstn n urls
    /\ (fst (rpc_request urls post 0) = Ok None
        \/ exists body, fst (rpc_request urls post 0) = Ok (Some body)).
Proof.
  intros Hne.
  assert (Hlen : (0 < List.length urls)%nat)
    by (destruct urls; [contradiction | simpl; lia]).
  destruct (rpc_request_run urls post (List.length urls - 1) 0
              ltac:(lia) Hlen)
    as (n & Hn & Htr & _ & Hend).
  exists n. split; [lia|]. split; [exact Htr|].
  destruct Hend as [(Hnone & _) | (body & url & Hsome & _)].
  - left. exact Hnone.
  - right. exists body. exact Hsome.
Qed.

(** When every endpoint fails, the call returns [None], and does so after
    contacting each endpoint exactly once. *)
Theorem rpc_request_all_fail :
  urls <> [] ->
  (forall i url, nth_error urls i = Some url -> failed (post i url) = true) ->
  rpc_request urls post 0 = (Ok None, urls).
Proof.
  intros Hne Hall.
  assert (Hlen : (0 < List.length urls)%nat)
    by (destruct urls; [contradiction | simpl; lia]).
  destruct (rpc_request_run urls post (List.length urls - 1) 0
              ltac:(lia) Hlen)
    as (n & Hn & Htr & _ & Hend).
  destruct Hend as [(Hnone & Hall' & _) | (body & url & _ & Hnth & Hok)].
  - rewrite (surjective_pairing (rpc_request urls post 0)), Hnone, Htr.
    f_equal. subst n. rewrite Nat.sub_0_r. apply firstn_all.
  - specialize (Hall _ _ Hnth). rewrite Hok in Hall. discriminate Hall.
Qed.

(** A body that is returned is the answer of the first endpoint, in the
    configured order, that answered without an error field: every
    endpoint before it was contacted and failed, none after it was
    contacted. *)
Theorem rpc_request_body_is_first_success (body : J) :
  fst (rpc_request urls post 0) = Ok (Some body) ->
  exists (n : nat) (url : string),
    snd (rpc_request urls post 0) = firstn (S n) urls
    /\ nth_error urls n = Some url
    /\ post n url = RpcResult body
    /\ forall i u, (i < n)%nat -> nth_error urls i = Some u ->
                   failed (post i u) = true.
Proof.
  intros Hsome.
  destruct urls as [|u0 us] eqn:Eu.
  { rewrite rpc_request_equation_1 in Hsome. simpl in Hsome.
    discriminate Hsome. }
  rewrite <- Eu in *.
  assert (Hlen : (0 < List.length urls)%nat) by (rewrite Eu; simpl; lia).
  destruct (rpc_request_run urls post (List.length urls - 1) 0
              ltac:(lia) Hlen)
    as (n & Hn & Htr & Hbefore & Hend).
  destruct Hend as [(Hnone & _) | (body' & url & Hsome' & Hnth & Hok)].
  - rewrite Hnone in Hsome. discriminate Hsome.
  - rewrite Hsome' in Hsome. injection Hsome as ->.
    simpl in Hnth, Hok, Hbefore.
    exists (n - 1)%nat, url. replace (S (n - 1)) with n by lia.
    repeat split; try assumption.
    intros i u Hi. apply Hbefore. lia.
Qed.

(** The modulo: an empty endpoint list raises [ZeroDivisionError] before
    any request is made; with endpoints, a call entered at an attempt
    number at or past the last index contacts the single endpoint
    [RPC_URLS[attempt % len]] and does not retry. *)
Theorem rpc_request_wraps (attempt : nat) :
  (urls = [] -> rpc_request urls post attempt = (Raise ZeroDivisionError, []))
  /\ (urls <> [] -> (List.length urls - 1 <= attempt)%nat ->
      exists url,
        nth_error urls (attempt mod List.length urls)%nat = Some url
        /\ rpc_request urls post attempt
           = (match post attempt url with
              | RpcResult body => Ok (Some body)
              | _ => Ok None
              end, [url])).
Proof.
  split.
  - intros ->. rewrite rpc_request_equation_1, nth_error_nil. reflexivity.
  - intros Hne Hge.
    assert (Hlen : (0 < List.length urls)%nat)
      by (destruct urls; [contradiction | simpl; lia]).
    assert (Hmod : (attempt mod List.length urls < List.length urls)%nat)
      by (apply Nat.mod_upper_bound; lia).
    destruct (nth_error urls (attempt mod List.length urls)%nat)
      as [url|] eqn:Hn; [|apply nth_error_None in Hn; lia].
    exists url. split; [reflexivity|].
    rewrite rpc_request_equation_1, Hn. simpl.
    destruct (post attempt url); simpl; try reflexivity.
    all: destruct (lt_dec attempt (List.length urls - 1)) as [Hl|Hl];
         [lia | reflexivity].
Qed.

End RpcClientExtras.

Lemma rpc_request_all_fail_witness :
  rpc_request RPC_URLS (fun _ _ => @HttpException Z) 0 = (Ok None, RPC_URLS).
Proof.
  apply (@rpc_request_all_fail Z RPC_URLS (fun _ _ => HttpException)).
  - discriminate.
  - intros i url _. reflexivity.
Defined.

Lemma rpc_request_bounded_witness :
  exists n : nat,
    (1 <= n <= List.length RPC_URLS)%nat
    /\ snd (rpc_request RPC_URLS three_failures 0) = firstn n RPC_URLS
    /\ (fst (rpc_request RPC_URLS three_failures 0) = Ok None
        \/ exists body, fst (rpc_request RPC_URLS three_failures 0)
                        = Ok (Some body)).
Proof.
  apply (@rpc_request_bounded Z RPC_URLS three_failures). discriminate.
Defined.

Lemma rpc_request_body_is_first_success_witness :
  exists (n : nat) (url : string),
    snd (rpc_request RPC_URLS three_failures 0) = firstn (S n) RPC_URLS
    /\ nth_error RPC_URLS n = Some url
    /\ three_failures n url = RpcResult 7
    /\ forall i u, (i < n)%nat -> nth_error RPC_URLS i = Some u ->
                   failed (three_failures i u) = true.
Proof.
  apply (@rpc_request_body_is_first_success Z RPC_URLS three_failures 7).
  vm_compute. reflexivity.
Defined.

(** ** The paginator: what keeps the loop going *)

Section PaginatorUnbounded.

Variable limit : nat.
Variable rpc : nat -> option string -> signatures_response.

(** The loop has no bound of its own: while every answer is a non-empty
    page of at least [limit] records, it asks again, whatever the number
    of requests already made. *)
Lemma loop_never_stops :
  (forall calls cursor, exists first others,
      rpc calls cursor = Some (Some (first :: others))
      /\ (limit <= List.length (first :: others))%nat) ->
  forall fuel calls before collected,
    get_all_signatures_loop limit rpc fuel calls before collected = None.
Proof.
  intros Hfull. induction fuel as [|fuel IH]; intros calls before collected;
    [reflexivity|].
  cbn [get_all_signatures_loop].
  destruct (Hfull calls (if str_truthy before then before else None))
    as (first & others & -> & Hlen).
  apply Nat.ltb_ge in Hlen. rewrite Hlen. apply IH.
Qed.

End PaginatorUnbounded.

(** [get_all_signatures] does not terminate against a provider that keeps
    answering with full pages (one that ignores the cursor, say): no
    number of requests makes it return. *)
Theorem get_all_signatures_unbounded
    (rpc : nat -> option string -> signatures_response) :
  (forall calls cursor, exists first others,
      rpc calls cursor = Some (Some (first :: others))
      /\ (100 <= List.length (first :: others))%nat) ->
  forall fuel, get_all_signatures rpc fuel = None.
Proof.
  intros Hfull fuel. unfold get_all_signatures.
  apply loop_never_stops. exact Hfull.
Qed.

Definition same_page (calls : nat) (cursor : option string)
    : signatures_response :=
  Some (Some (repeat (sig_record "s") 100)).

Lemma get_all_signatures_unbounded_witness :
  get_all_signatures same_page 1000 = None.
Proof.
  apply (get_all_signatures_unbounded same_page).
  intros calls cursor. exists (sig_record "s"), (repeat (sig_record "s") 99).
  split; [reflexivity|]. simpl. lia.
Defined.

(** The cursor is tested for truth, not for presence: when a full page
    ends with a record whose signature is the empty string, the next
    request carries no cursor, the provider serves the first page again,
    and the loop never returns. *)
Theorem empty_signature_restarts (history : list SignatureRecord)
    (limit : nat) (first : SignatureRecord) (others : list SignatureRecord) :
  firstn limit history = first :: others ->
  List.length (first :: others) = limit ->
  sig_signature (last others first) = "" ->
  forall fuel,
    get_all_signatures_loop limit (fixed_history history limit) fuel 0 None []
    = None.
Proof.
  intros Hpage Hlen Hsig.
  assert (Hgen : forall fuel calls before collected,
            str_truthy before = false ->
            get_all_signatures_loop limit (fixed_history history limit)
              fuel calls before collected = None).
  { induction fuel as [|fuel IH]; intros calls before collected Hb;
      [reflexivity|].
    cbn [get_all_signatures_loop]. rewrite Hb.
    unfold fixed_history at 1. rewrite Hpage.
    assert (Hfull : (List.length (first :: others) <? limit)%nat = false)
      by (apply Nat.ltb_ge; lia).
    rewrite Hfull. apply IH. simpl. rewrite Hsig. reflexivity. }
  intros fuel. apply Hgen. reflexivity.
Qed.

Lemma empty_signature_restarts_witness :
  get_all_signatures_loop 2
    (fixed_history (map sig_record ["s3"; ""; "s1"]) 2) 1000 0 None []
  = None.
Proof.
  apply (empty_signature_restarts (map sig_record ["s3"; ""; "s1"]) 2
           (sig_record "s3") [sig_record ""]); reflexivity.
Defined.

(** ** The transfer extractor: the counterparty of an outgoing transfer *)

(** The test of the recipient loop on one pair of balances. *)
Definition recipient_test (balance_change : float) (pre post : Z) : bool :=
  let change := to_sol (post - pre) in
  ((0 <? change) && (abs balance_change <=? abs change))%float.

Definition recipient_qualifies (meta : Meta) (idx : nat) (bc : float)
    (i : nat) : bool :=
  negb (i =? idx)%nat
  && match nth_error (combine (preBalances meta) (postBalances meta)) i with
     | Some (p, q) => recipient_test bc p q
     | None => false
     end.

Lemma find_recipient_spec (keys : list AccountKey) (idx : nat) (bc : float)
    (balances : list (Z * Z)) :
  forall i : nat,
  Forall pair_ok balances ->
  (i + List.length balances <= List.length keys)%nat ->
  (exists j p q key,
      nth_error balances j = Some (p, q)
      /\ (i + j)%nat <> idx
      /\ recipient_test bc p q = true
      /\ (forall j' p' q', (j' < j)%nat -> nth_error balances j' = Some (p', q') ->
            (i + j')%nat = idx \/ recipient_test bc p' q' = false)
      /\ nth_error keys (i + j) = Some key
      /\ find_recipient keys idx bc i balances = Ok (key_address key))
  \/ ((forall j p q, nth_error balances j = Some (p, q) ->
          (i + j)%nat = idx \/ recipient_test bc p q = false)
      /\ find_recipient keys idx bc i balances = Ok None).
Proof.
  induction balances as [|[p q] rest IH]; intros i Hok Hlen.
  - right. split; [|reflexivity]. intros [|j] p q H; discriminate H.
  - inversion Hok as [|x l [Hp Hq] Hrest]; subst. simpl in Hp, Hq, Hlen.
    assert (Hstep :
      find_recipient keys idx bc i ((p, q) :: rest)
      = if (i =? idx)%nat then find_recipient keys idx bc (S i) rest
        else if recipient_test bc p q
             then bind (index keys i) (fun k => Ok (key_address k))
             else find_recipient keys idx bc (S i) rest).
    { simpl. destruct (i =? idx)%nat; [reflexivity|].
      rewrite (int_truediv_to_sol _ (u64_diff p q Hp Hq)). reflexivity. }
    rewrite Hstep.
    destruct (i =? idx)%nat eqn:Ei;
      [|destruct (recipient_test bc p q) eqn:Et].
    2:{ left. destruct (@index_in_range _ keys i) as (key & Hk & Hix); [lia|].
        exists 0%nat, p, q, key. rewrite Nat.add_0_r, Hix.
        repeat split; try assumption; try reflexivity.
        - apply Nat.eqb_neq. exact Ei.
        - intros j' p' q' Hj. lia. }
    all: destruct (IH (S i) Hrest ltac:(lia))
           as [(j & p' & q' & key & Hn & Hne & Ht & Hmin & Hk & Hres) | [Hall Hres]].
    all: try (left; exists (S j), p', q', key;
              replace (i + S j)%nat with (S i + j)%nat by lia;
              repeat split; try assumption;
              intros [|j'] p'' q'' Hj Hn';
              [ injection Hn' as <- <-; rewrite Nat.add_0_r;
                first [ left; apply Nat.eqb_eq; assumption | right; assumption ]
              | replace (i + S j')%nat with (S i + j')%nat by lia;
                apply (Hmin j' p'' q''); [lia | exact Hn'] ]).
    all: right; split; [|exact Hres];
         intros [|j'] p'' q'' Hn';
         [ injection Hn' as <- <-; rewrite Nat.add_0_r;
           first [ left; apply Nat.eqb_eq; assumption | right; assumption ]
         | replace (i + S j')%nat with (S i + j')%nat by lia;
           apply (Hall j' p'' q''); exact Hn' ].
Qed.

(** For a transfer that is not incoming (the tracked balance went down),
    the counterparty reported is the address of the first account, in
    ascending index order and other than the tracked one, whose balance
    rose by at least the tracked change in absolute value; the fee plays
    no part. It is "Unknown" when there is none. *)
Theorem outgoing_counterparty_first_match (tx : TxData) (treasury : string)
    (meta : Meta) (idx : nat) (pre post : Z) :
  well_formed tx = true ->
  tx_meta tx = Some meta ->
  find_treasury_index (accountKeys (message (tx_transaction tx))) treasury 0
    = Some idx ->
  nth_error (preBalances meta) idx = Some pre ->
  nth_error (postBalances meta) idx = Some post ->
  (DUST_EPSILON <? abs (computed_change pre post))%float = true ->
  (0 <? computed_change pre post)%float = false ->
  exists tr,
    extract_sol_transfers (Some tx) treasury = Ok (Some tr)
    /\ balance_change tr = computed_change pre post
    /\ ((exists i key,
            recipient_qualifies meta idx (computed_change pre post) i = true
            /\ (forall j, (j < i)%nat ->
                  recipient_qualifies meta idx (computed_change pre post) j = false)
            /\ nth_error (accountKeys (message (tx_transaction tx))) i = Some key
            /\ counterparty tr = or_unknown (key_address key))
        \/ ((forall i,
               recipient_qualifies meta idx (computed_change pre post) i = false)
            /\ counterparty tr = "Unknown")).
Proof.
  intros Hwf Hmeta Hidx Hpre Hpost Hdust Hout.
  destruct (extract_reports tx treasury meta idx pre post
              Hwf Hmeta Hidx Hpre Hpost Hdust)
    as (r & d & ts & sg & Hr & _ & _ & _ & Hres).
  rewrite Hout in Hr.
  destruct (well_formed_parts tx meta Hwf Hmeta)
    as (Hl1 & Hl2 & Hp & Hq & Hfee & _).
  eexists. split; [exact Hres|]. split; [reflexivity|]. simpl.
  destruct (find_recipient_spec (accountKeys (message (tx_transaction tx)))
              idx (computed_change pre post)
              (combine (preBalances meta) (postBalances meta)) 0%nat
              (combine_pair_ok _ _ Hp Hq)
              ltac:(rewrite length_combine; lia))
    as [(j & p & q & key & Hn & Hne & Ht & Hmin & Hk & Hfound) | [Hall Hnone]].
  - left. exists j, key. rewrite Hfound in Hr. injection Hr as <-.
    simpl in Hne, Hk. unfold recipient_qualifies. repeat split.
    + rewrite Hn, Ht. apply Nat.eqb_neq in Hne. rewrite Hne. reflexivity.
    + intros j' Hj.
      destruct (nth_error (combine (preBalances meta) (postBalances meta)) j')
        as [[p' q']|] eqn:En; [|apply andb_false_r].
      destruct (Hmin j' p' q' Hj En) as [He|He].
      * simpl in He. apply Nat.eqb_eq in He. rewrite He. reflexivity.
      * rewrite He. apply andb_false_r.
    + exact Hk.
  - right. rewrite Hnone in Hr. injection Hr as <-. split; [|reflexivity].
    intros i. unfold recipient_qualifies.
    destruct (nth_error (combine (preBalances meta) (postBalances meta)) i)
      as [[p' q']|] eqn:En; [|apply andb_false_r].
    destruct (Hall i p' q' En) as [He|He].
    + simpl in He. apply Nat.eqb_eq in He. rewrite He. reflexivity.
    + rewrite He. apply andb_false_r.
Qed.

(** The treasury pays 0.5 SOL to [B] and the fee. *)
Definition payout : TxData :=
  bare_tx [KeyStr "T"; KeyStr "B"] [2000000000; 0] [1499995000; 500000000]
    5000 None.

Example payout_found :
  extract_sol_transfers (Some payout) "T"
  = Ok (Some {| timestamp := 1700000000;
                formatted_time := LocalTime 1700000000;
                signature := "sig1";
                balance_change := computed_change 2000000000 1499995000;
                counterparty := "Unknown";
                is_system_transfer := false;
                description := NoDescription |}).
Proof. vm_compute. reflexivity. Qed.

Lemma outgoing_counterparty_first_match_witness :
  exists tr,
    extract_sol_transfers (Some payout) "T" = Ok (Some tr)
    /\ balance_change tr = computed_change 2000000000 1499995000
    /\ ((exists i key,
            recipient_qualifies
              {| preBalances := [2000000000; 0];
                 postBalances := [1499995000; 500000000];
                 fee := 5000; err := None; logMessages := Absent |}
              0 (computed_change 2000000000 1499995000) i = true
            /\ (forall j, (j < i)%nat ->
                  recipient_qualifies
                    {| preBalances := [2000000000; 0];
                       postBalances := [1499995000; 500000000];
                       fee := 5000; err := None; logMessages := Absent |}
                    0 (computed_change 2000000000 1499995000) j = false)
            /\ nth_error (accountKeys (message (tx_transaction payout))) i
               = Some key
            /\ counterparty tr = or_unknown (key_address key))
        \/ ((forall i,
               recipient_qualifies
                 {| preBalances := [2000000000; 0];
                    postBalances := [1499995000; 500000000];
                    fee := 5000; err := None; logMessages := Absent |}
                 0 (computed_change 2000000000 1499995000) i = false)
            /\ counterparty tr = "Unknown")).
Proof.
  apply (outgoing_counterparty_first_match payout "T"
           {| preBalances := [2000000000; 0];
              postBalances := [1499995000; 500000000];
              fee := 5000; err := None; logMessages := Absent |}
           0 2000000000 1499995000);
    vm_compute; reflexivity.
Defined.

(** ** The transfer extractor: what a returned transfer always satisfies *)

Lemma int_truediv_value (z : Z) (f : float) :
  int_truediv z LAMPORTS_PER_SOL = Ok f -> f = to_sol z.
Proof.
  unfold int_truediv. change (LAMPORTS_PER_SOL =? 0) with false. cbv iota.
  destruct (Z.abs LAMPORTS_PER_SOL * DBL_OVERFLOW <=? Z.abs z);
    [discriminate|].
  intros H. injection H as <-. reflexivity.
Qed.

Lemma or_unknown_nonempty (o : option string) : or_unknown o <> "".
Proof.
  unfold or_unknown, str_truthy. destruct o as [s|]; [|discriminate].
  destruct (String.eqb_spec s ""); simpl; [discriminate | assumption].
Qed.

Lemma bind_ok {A B : Type} (r : result A) (k : A -> result B) (b : B) :
  bind r k = Ok b -> exists a, r = Ok a /\ k a = Ok b.
Proof.
  destruct r as [a|e]; simpl; [|discriminate].
  intros H. exists a. split; [reflexivity | exact H].
Qed.

(** The steps behind a transfer that is returned. *)
Lemma extract_some_parts (tx_data : option TxData) (treasury : string)
    (tr : Transfer) :
  extract_sol_transfers tx_data treasury = Ok (Some tr) ->
  exists tx meta idx pre post cp,
    tx_data = Some tx
    /\ tx_meta tx = Some meta
    /\ find_treasury_index (accountKeys (message (tx_transaction tx)))
         treasury 0 = Some idx
    /\ nth_error (preBalances meta) idx = Some pre
    /\ nth_error (postBalances meta) idx = Some post
    /\ (DUST_EPSILON <? abs (computed_change pre post))%float = true
    /\ nth_error (signatures (tx_transaction tx)) 0 = Some (signature tr)
    /\ jget (blockTime tx) 0 = Some (timestamp tr)
    /\ match logMessages meta with
       | Absent => Ok false
       | JNull => Raise TypeError
       | JVal log_messages => Ok (scan_logs log_messages)
       end = Ok (is_system_transfer tr)
    /\ match instructions (message (tx_transaction tx)) with
       | None => Ok NoDescription
       | Some instrs => describe treasury instrs NoDescription
       end = Ok (description tr)
    /\ tr = {| timestamp := timestamp tr;
               formatted_time := LocalTime (timestamp tr);
               signature := signature tr;
               balance_change := computed_change pre post;
               counterparty := or_unknown cp;
               is_system_transfer := is_system_transfer tr;
               description := description tr |}.
Proof.
  unfold extract_sol_transfers.
  destruct tx_data as [tx|]; [|discriminate].
  destruct (tx_meta tx) as [meta|] eqn:Hmeta; [|discriminate]. cbv zeta.
  destruct (find_treasury_index _ treasury 0) as [idx|] eqn:Hidx;
    [|discriminate].
  destruct (nth_error (preBalances meta) idx) as [pre|] eqn:Hpre;
    [|discriminate].
  destruct (nth_error (postBalances meta) idx) as [post|] eqn:Hpost;
    [|discriminate].
  intros H.
  apply bind_ok in H. destruct H as (pre_f & Hpf & H).
  apply bind_ok in H. destruct H as (post_f & Hqf & H).
  apply int_truediv_value in Hpf, Hqf. subst pre_f post_f.
  destruct (DUST_EPSILON <? abs (to_sol post - to_sol pre))%float eqn:Hd;
    [|discriminate].
  apply bind_ok in H. destruct H as (cp & _ & H).
  apply bind_ok in H. destruct H as (flag & Hflag & H).
  apply bind_ok in H. destruct H as (d & Hdesc & H).
  apply bind_ok in H. destruct H as (fmt & Hfmt & H).
  apply bind_ok in H. destruct H as (sg & Hsg & H).
  injection H as <-.
  exists tx, meta, idx, pre, post, cp. simpl.
  unfold index in Hsg.
  destruct (nth_error (signatures (tx_transaction tx)) 0) as [sg'|] eqn:Hs;
    [|discriminate].
  injection Hsg as <-.
  destruct (format_timestamp_value _ _ Hfmt) as (ts & Hts & ->).
  rewrite Hts.
  repeat split; try assumption; reflexivity.
Qed.

(** Whatever the record, a transfer that is returned was computed from
    the first account key equal to the tracked address: its change is the
    float [post / 1e9 - pre / 1e9] at that index and exceeds 1e-6 in
    absolute value; its counterparty is never the empty string; its
    signature is the first signature of the transaction; and its
    timestamp is the record's block time, 0 when the record has none. *)
Theorem returned_transfer_sound (tx_data : option TxData) (treasury : string)
    (tr : Transfer) :
  extract_sol_transfers tx_data treasury = Ok (Some tr) ->
  exists tx meta idx pre post,
    tx_data = Some tx
    /\ tx_meta tx = Some meta
    /\ find_treasury_index (accountKeys (message (tx_transaction tx)))
         treasury 0 = Some idx
    /\ nth_error (preBalances meta) idx = Some pre
    /\ nth_error (postBalances meta) idx = Some post
    /\ balance_change tr = computed_change pre post
    /\ (DUST_EPSILON <? abs (balance_change tr))%float = true
    /\ counterparty tr <> ""
    /\ nth_error (signatures (tx_transaction tx)) 0 = Some (signature tr)
    /\ jget (blockTime tx) 0 = Some (timestamp tr)
    /\ formatted_time tr = LocalTime (timestamp tr).
Proof.
  intros H.
  destruct (extract_some_parts tx_data treasury tr H)
    as (tx & meta & idx & pre & post & cp & Htx & Hmeta & Hidx & Hpre & Hpost
        & Hd & Hsg & Hts & _ & _ & Htr).
  exists tx, meta, idx, pre, post. rewrite Htr. simpl.
  repeat split; try assumption.
  apply or_unknown_nonempty.
Qed.

Lemma returned_transfer_sound_witness :
  exists tx meta idx pre post,
    Some more_keys = Some tx
    /\ tx_meta tx = Some meta
    /\ find_treasury_index (accountKeys (message (tx_transaction tx)))
         "T" 0 = Some idx
    /\ nth_error (preBalances meta) idx = Some pre
    /\ nth_error (postBalances meta) idx = Some post
    /\ balance_change (transfer_at 1700000000 "sig1" 1) = computed_change pre post
    /\ (DUST_EPSILON <? abs (balance_change (transfer_at 1700000000 "sig1" 1)))%float = true
    /\ counterparty (transfer_at 1700000000 "sig1" 1) <> ""
    /\ nth_error (signatures (tx_transaction tx)) 0
       = Some (signature (transfer_at 1700000000 "sig1" 1))
    /\ jget (blockTime tx) 0 = Some (timestamp (transfer_at 1700000000 "sig1" 1))
    /\ formatted_time (transfer_at 1700000000 "sig1" 1)
       = LocalTime (timestamp (transfer_at 1700000000 "sig1" 1)).
Proof.
  apply (returned_transfer_sound (Some more_keys) "T"
           (transfer_at 1700000000 "sig1" 1)).
  vm_compute. reflexivity.
Defined.

(** ** The transfer extractor: the system-transfer flag *)

Lemma str_contains_spec (sub s : string) :
  sub <> "" ->
  (str_contains sub s = true
   <-> exists m, substring m (String.length sub) s = sub).
Proof.
  intros Hne. unfold str_contains.
  destruct (String.index 0 sub s) as [m|] eqn:E.
  - split; [|reflexivity]. intros _. exists m.
    apply (index_correct1 0 m sub s E).
  - split; [discriminate|]. intros [m Hm]. exfalso.
    apply (index_correct3 0 m sub s E Hne (Nat.le_0_l m)). exact Hm.
Qed.

(** The flag of a returned transfer says one thing only: some log line of
    the record contains the text "Program 1111...1111 invoke". The
    instructions, the amount and the counterparty play no part, and a
    record without a log gives false. *)
Theorem system_flag_from_logs (tx : TxData) (treasury : string)
    (tr : Transfer) (meta : Meta) :
  extract_sol_transfers (Some tx) treasury = Ok (Some tr) ->
  tx_meta tx = Some meta ->
  (is_system_transfer tr = true
   <-> exists log_messages log m,
         logMessages meta = JVal log_messages
         /\ In log log_messages
         /\ substring m (String.length SYSTEM_INVOKE) log = SYSTEM_INVOKE).
Proof.
  intros H Hmeta.
  destruct (extract_some_parts (Some tx) treasury tr H)
    as (tx' & meta' & idx & pre & post & cp & Htx & Hmeta' & _ & _ & _
        & _ & _ & _ & Hflag & _).
  injection Htx as <-. rewrite Hmeta in Hmeta'. injection Hmeta' as <-.
  destruct (logMessages meta) as [| |logs]; try discriminate Hflag.
  - injection Hflag as <-. split; [discriminate|].
    intros (l & _ & _ & Hl & _). discriminate Hl.
  - injection Hflag as <-. unfold scan_logs. rewrite existsb_exists. split.
    + intros (log & Hin & Hc).
      apply (str_contains_spec SYSTEM_INVOKE log) in Hc; [|discriminate].
      destruct Hc as [m Hm]. exists logs, log, m. repeat split; assumption.
    + intros (l & log & m & Hl & Hin & Hm). injection Hl as <-.
      exists log. split; [exact Hin|].
      apply (str_contains_spec SYSTEM_INVOKE log); [discriminate|].
      exists m. exact Hm.
Qed.

Lemma system_flag_from_logs_witness :
  is_system_transfer (scenario_transfer true) = true
  <-> exists log_messages log m,
        logMessages
          {| preBalances := [1000000000; 500000000];
             postBalances := [1250000000; 250000000];
             fee := 5000; err := None;
             logMessages :=
               JVal ["Program 11111111111111111111111111111111 invoke [1]"] |}
        = JVal log_messages
        /\ In log log_messages
        /\ substring m (String.length SYSTEM_INVOKE) log = SYSTEM_INVOKE.
Proof.
  apply (system_flag_from_logs
           (scenario (JVal ["Program 11111111111111111111111111111111 invoke [1]"]))
           "T" (scenario_transfer true)).
  - vm_compute. reflexivity.
  - reflexivity.
Defined.

(** ** The transfer extractor: when it raises and when it cannot *)

(** On a record that satisfies the data model ([well_formed]) the
    extractor raises nothing: it returns none or a transfer. *)
Theorem well_formed_never_raises (tx : TxData) (treasury : string) :
  well_formed tx = true ->
  extract_sol_transfers (Some tx) treasury = Ok None
  \/ exists tr, extract_sol_transfers (Some tx) treasury = Ok (Some tr).
Proof.
  intros Hwf.
  destruct (tx_meta tx) as [meta|] eqn:Hmeta;
    [|unfold well_formed in Hwf; rewrite Hmeta in Hwf; discriminate Hwf].
  destruct (find_treasury_index (accountKeys (message (tx_transaction tx)))
              treasury 0) as [idx|] eqn:Hidx.
  2:{ left. unfold extract_sol_transfers. rewrite Hmeta. cbv zeta.
      rewrite Hidx. reflexivity. }
  destruct (nth_error (preBalances meta) idx) as [pre|] eqn:Hpre.
  2:{ left. unfold extract_sol_transfers. rewrite Hmeta. cbv zeta.
      rewrite Hidx, Hpre. reflexivity. }
  destruct (nth_error (postBalances meta) idx) as [post|] eqn:Hpost.
  2:{ left. unfold extract_sol_transfers. rewrite Hmeta. cbv zeta.
      rewrite Hidx, Hpre, Hpost. reflexivity. }
  destruct (DUST_EPSILON <? abs (computed_change pre post))%float eqn:Hd.
  - right.
    destruct (extract_reports tx treasury meta idx pre post
                Hwf Hmeta Hidx Hpre Hpost Hd)
      as (r & d & ts & sg & _ & _ & _ & _ & Hres).
    eexists. exact Hres.
  - left. apply (extract_drops tx treasury meta idx pre post); assumption.
Qed.

Lemma well_formed_never_raises_witness :
  extract_sol_transfers (Some third_party_fee) "T" = Ok None
  \/ exists tr, extract_sol_transfers (Some third_party_fee) "T" = Ok (Some tr).
Proof.
  apply (well_formed_never_raises third_party_fee "T"). reflexivity.
Defined.

Definition with_block_time (block_time : jfield Z) (tx : TxData) : TxData :=
  {| tx_meta := tx_meta tx;
     tx_transaction := tx_transaction tx;
     blockTime := block_time |}.

Definition with_logs (logs : jfield (list string)) (tx : TxData) : TxData :=
  {| tx_meta :=
       match tx_meta tx with
       | Some meta =>
           Some {| preBalances := preBalances meta;
                   postBalances := postBalances meta;
                   fee := fee meta;
                   err := err meta;
                   logMessages := logs |}
       | None => None
       end;
     tx_transaction := tx_transaction tx;
     blockTime := blockTime tx |}.

Definition with_signatures (sigs : list string) (tx : TxData) : TxData :=
  {| tx_meta := tx_meta tx;
     tx_transaction :=
       {| signatures := sigs; message := message (tx_transaction tx) |};
     blockTime := blockTime tx |}.

(** The fields the data model makes optional are not optional for the
    extractor once the dust filter is passed: a record that would yield a
    transfer raises [TypeError] when its ["blockTime"] is null (from
    [format_timestamp]) or when its ["logMessages"] is null (from the log
    loop), [IndexError] when it has no signature while its block time can
    be rendered, and whatever [datetime.fromtimestamp] raises
    ([ValueError], [OSError] or [OverflowError]) when its block time is out
    of range. Nothing in the function catches them. *)
Theorem null_fields_raise (tx : TxData) (treasury : string) (meta : Meta)
    (idx : nat) (pre post : Z) :
  well_formed tx = true ->
  tx_meta tx = Some meta ->
  find_treasury_index (accountKeys (message (tx_transaction tx))) treasury 0
    = Some idx ->
  nth_error (preBalances meta) idx = Some pre ->
  nth_error (postBalances meta) idx = Some post ->
  (DUST_EPSILON <? abs (computed_change pre post))%float = true ->
  extract_sol_transfers (Some (with_block_time JNull tx)) treasury
    = Raise TypeError
  /\ extract_sol_transfers (Some (with_logs JNull tx)) treasury
    = Raise TypeError
  /\ extract_sol_transfers (Some (with_signatures [] tx)) treasury
    = Raise IndexError
  /\ forall (t : Z) (e : exn),
       fromtimestamp t = Raise e ->
       extract_sol_transfers (Some (with_block_time (JVal t) tx)) treasury
       = Raise e.
Proof.
  intros Hwf Hmeta Hidx Hpre Hpost Hd.
  destruct (extract_reports tx treasury meta idx pre post
              Hwf Hmeta Hidx Hpre Hpost Hd)
    as (r & d & ts0 & sg & Hr & _ & _ & Hdesc & _).
  destruct (well_formed_time tx meta Hwf Hmeta) as (ts & Hts & Hfmt).
  destruct (well_formed_parts tx meta Hwf Hmeta)
    as (_ & _ & Hp & Hq & _ & _ & _ & Hlogs & _).
  pose proof (int_truediv_to_sol _ (u64_abs _ (forallb_nth _ _ _ Hp Hpre)))
    as Hpf.
  pose proof (int_truediv_to_sol _ (u64_abs _ (forallb_nth _ _ _ Hq Hpost)))
    as Hqf.
  unfold computed_change in *.
  repeat split; unfold extract_sol_transfers;
    cbn [with_block_time with_logs with_signatures tx_meta tx_transaction
         message accountKeys instructions signatures blockTime];
    rewrite Hmeta; cbv zeta;
    cbn [preBalances postBalances fee logMessages];
    rewrite Hidx, Hpre, Hpost, Hpf, Hqf; cbn [bind]; rewrite Hd, Hr;
    cbn [bind].
  - destruct (logMessages meta); [|contradiction|]; cbn [bind];
      rewrite Hdesc; reflexivity.
  - reflexivity.
  - destruct (logMessages meta); [|contradiction|]; cbn [bind];
      rewrite Hdesc, Hts; cbn [bind]; rewrite Hfmt; reflexivity.
  - intros t e Ht.
    destruct (logMessages meta); [|contradiction|]; cbn [bind];
      rewrite Hdesc; cbn [bind jget format_timestamp]; rewrite Ht;
      reflexivity.
Qed.

Lemma null_fields_raise_witness :
  extract_sol_transfers (Some (with_block_time JNull fee_paying_sender)) "T"
    = Raise TypeError
  /\ extract_sol_transfers (Some (with_logs JNull fee_paying_sender)) "T"
    = Raise TypeError
  /\ extract_sol_transfers (Some (with_signatures [] fee_paying_sender)) "T"
    = Raise IndexError
  /\ extract_sol_transfers
       (Some (with_block_time (JVal 253402300800) fee_paying_sender)) "T"
    = Raise ValueError
  /\ extract_sol_transfers
       (Some (with_block_time (JVal (2 ^ 63)) fee_paying_sender)) "T"
    = Raise OverflowError.
Proof.
  destruct (null_fields_raise fee_paying_sender "T"
              {| preBalances := [2000000000; 0];
                 postBalances := [999995000; 750000000];
                 fee := 5000; err := None; logMessages := Absent |}
              1 0 750000000) as (Hnull & Hlogs & Hsigs & Hrange);
    try (vm_compute; reflexivity).
  repeat split; try assumption; apply Hrange; reflexivity.
Defined.

(** ** The loop of [main]: order, bound, and exceptions *)

(** What one signature contributes when nothing raises. *)
Definition extracted (fetch : string -> option TxData)
    (sig_data : SignatureRecord) : list Transfer :=
  match fetch (sig_signature sig_data) with
  | Some tx_data =>
      match extract_sol_transfers (Some tx_data) TREASURY_WALLET with
      | Ok (Some t) => [t]
      | _ => []
      end
  | None => []
  end.

Lemma process_signatures_app (fetch : string -> option TxData)
    (l1 l2 : list SignatureRecord) :
  forall acc,
  process_signatures fetch (l1 ++ l2) acc
  = bind (process_signatures fetch l1 acc)
      (fun acc' => process_signatures fetch l2 acc').
Proof.
  induction l1 as [|s l1 IH]; intros acc; [reflexivity|].
  cbn [app process_signatures].
  destruct (fetch (sig_signature s)) as [tx|]; [|apply IH].
  destruct (extract_sol_transfers (Some tx) TREASURY_WALLET) as [o|e];
    [|reflexivity].
  cbn [bind]. apply IH.
Qed.

Lemma process_signatures_ok (fetch : string -> option TxData)
    (sigs : list SignatureRecord) :
  forall acc r,
  process_signatures fetch sigs acc = Ok r ->
  r = acc ++ flat_map (extracted fetch) sigs.
Proof.
  induction sigs as [|s sigs IH]; intros acc r H.
  - cbn [process_signatures] in H. injection H as <-.
    cbn [flat_map]. rewrite app_nil_r. reflexivity.
  - cbn [process_signatures] in H. cbn [flat_map]. unfold extracted at 1.
    destruct (fetch (sig_signature s)) as [tx|]; [|apply IH; exact H].
    destruct (extract_sol_transfers (Some tx) TREASURY_WALLET) as [o|e];
      [|discriminate H].
    cbn [bind] in H. apply IH in H. rewrite H.
    destruct o as [t|]; cbn [ingest app]; [rewrite <- app_assoc|];
      reflexivity.
Qed.

Lemma flat_map_extracted_length (fetch : string -> option TxData)
    (sigs : list SignatureRecord) :
  (List.length (flat_map (extracted fetch) sigs) <= List.length sigs)%nat.
Proof.
  induction sigs as [|s sigs IH]; [apply Nat.le_refl|].
  cbn [flat_map List.length]. rewrite length_app. unfold extracted at 1.
  destruct (fetch (sig_signature s)) as [tx|]; [|cbn [List.length]; lia].
  destruct (extract_sol_transfers (Some tx) TREASURY_WALLET) as [[t|]|e];
    cbn [List.length]; lia.
Qed.

(** When the run is not aborted, the transfers collected are, in the
    order of the signature list (newest first), the transfers extracted
    from the first 500 signatures whose transaction could be fetched: a
    signature that cannot be fetched or yields no transfer is skipped,
    one after the 500th is never looked at, and each signature gives at
    most one transfer. *)
Theorem collect_transfers_in_order (fetch : string -> option TxData)
    (sigs : list SignatureRecord) (r : list Transfer) :
  collect_transfers fetch sigs = Ok r ->
  r = flat_map (extracted fetch) (firstn MAX_TRANSACTIONS_TO_PROCESS sigs)
  /\ (List.length r <= Nat.min (List.length sigs) MAX_TRANSACTIONS_TO_PROCESS)%nat
  /\ forall more, (MAX_TRANSACTIONS_TO_PROCESS <= List.length sigs)%nat ->
       collect_transfers fetch (sigs ++ more) = Ok r.
Proof.
  unfold collect_transfers. intros H.
  pose proof (process_signatures_ok fetch _ [] r H) as Hr.
  cbn [app] in Hr.
  split; [exact Hr|]. split.
  - rewrite Hr.
    apply Nat.le_trans
      with (List.length (firstn MAX_TRANSACTIONS_TO_PROCESS sigs)).
    + apply flat_map_extracted_length.
    + rewrite length_firstn. lia.
  - intros more Hlen. rewrite firstn_app.
    replace (MAX_TRANSACTIONS_TO_PROCESS - List.length sigs)%nat with 0%nat
      by lia.
    rewrite firstn_O, app_nil_r. exact H.
Qed.

Lemma collect_transfers_in_order_witness :
  [deposit_transfer; deposit_transfer]
  = flat_map (extracted (fun _ => Some deposit))
      (firstn MAX_TRANSACTIONS_TO_PROCESS [sig_record "sig1"; sig_record "sig1"])
  /\ (List.length [deposit_transfer; deposit_transfer]
      <= Nat.min (List.length [sig_record "sig1"; sig_record "sig1"])
           MAX_TRANSACTIONS_TO_PROCESS)%nat
  /\ forall more,
       (MAX_TRANSACTIONS_TO_PROCESS
        <= List.length [sig_record "sig1"; sig_record "sig1"])%nat ->
       collect_transfers (fun _ => Some deposit)
         ([sig_record "sig1"; sig_record "sig1"] ++ more)
       = Ok [deposit_transfer; deposit_transfer].
Proof.
  apply (collect_transfers_in_order (fun _ => Some deposit)
           [sig_record "sig1"; sig_record "sig1"]
           [deposit_transfer; deposit_transfer]).
  vm_compute. reflexivity.
Defined.

(** [main] does not guard the extractor: when the record of one of the
    first 500 signatures makes it raise, the whole run ends with that
    exception, and the transfers collected from the earlier signatures
    are not returned. *)
Theorem extractor_error_aborts_run (fetch : string -> option TxData)
    (earlier later : list SignatureRecord) (sig_data : SignatureRecord)
    (tx : TxData) (e : exn) (collected : list Transfer) :
  (List.length earlier < MAX_TRANSACTIONS_TO_PROCESS)%nat ->
  process_signatures fetch earlier [] = Ok collected ->
  fetch (sig_signature sig_data) = Some tx ->
  extract_sol_transfers (Some tx) TREASURY_WALLET = Raise e ->
  collect_transfers fetch (earlier ++ sig_data :: later) = Raise e.
Proof.
  intros Hlen Hearlier Hfetch Hraise. unfold collect_transfers.
  rewrite firstn_app, (firstn_all2 earlier) by lia.
  destruct (MAX_TRANSACTIONS_TO_PROCESS - List.length earlier)%nat
    as [|k] eqn:Ek; [lia|].
  cbn [firstn]. rewrite process_signatures_app, Hearlier.
  cbn [bind process_signatures]. rewrite Hfetch, Hraise. reflexivity.
Qed.

(** A deposit whose block time is null, after a good one. *)
Definition fetch_two (sig : string) : option TxData :=
  if String.eqb sig "sig2" then Some (with_block_time JNull deposit)
  else Some deposit.

Lemma extractor_error_aborts_run_witness :
  collect_transfers fetch_two
    ([sig_record "sig1"] ++ sig_record "sig2" :: [sig_record "sig3"])
  = Raise TypeError.
Proof.
  apply (extractor_error_aborts_run fetch_two [sig_record "sig1"]
           [sig_record "sig3"] (sig_record "sig2")
           (with_block_time JNull deposit) TypeError [deposit_transfer]).
  - vm_compute. lia.
  - vm_compute. reflexivity.
  - reflexivity.
  - vm_compute. reflexivity.
Defined.

(** ** The summary: sorting once is enough *)

Lemma sort_reverse_sorted_id {A : Type} (key : A -> Z) (l : list A) :
  Sorted (desc key) l -> sort_reverse key l = l.
Proof.
  induction 1 as [|x l Hs IH Hhd]; [reflexivity|].
  simpl. rewrite IH. destruct Hhd as [|y l' Hxy]; [reflexivity|].
  simpl. unfold desc in Hxy. apply Z.leb_le in Hxy. rewrite Hxy. reflexivity.
Qed.

(** Summarising the transfers of a summary changes nothing: the list is
    already in order, so the order, the totals and the count are the
    same. *)
Theorem finalize_idempotent (sol_transfers : list Transfer) :
  finalize (transfers (finalize sol_transfers)) = finalize sol_transfers.
Proof.
  unfold finalize. cbn [transfers].
  rewrite (sort_reverse_sorted_id timestamp
             (sort_reverse timestamp sol_transfers)
             (sort_reverse_sorted timestamp sol_transfers)).
  reflexivity.
Qed.

(** ** scripts/fetch_contributions.py: [process_transaction] *)

(** The exceptions of this script: those of [exn], and the one raised by
    [.get] on a value that is not an object. *)
Inductive script_exn : Type :=
| AttributeError
| Builtin (e : exn).

Inductive attempt (A : Type) : Type :=
| Returns (a : A)
| Throws (e : script_exn).
Arguments Returns {A} a.
Arguments Throws {A} e.

(** The ["parsed"] entry of an instruction: missing (or null), a text (the
    memo program), or an object. *)
Inductive parsed_field : Type :=
| ParsedAbsent
| ParsedText (text : string)
| ParsedObject (parsed : Parsed).

(** The record as [process_transaction] reads it: the balances are
    tested with [in], the keys and the instructions are subscripted. *)
Record ContribMeta : Type := {
  cm_preBalances : option (list Z);
  cm_postBalances : option (list Z)
}.

Record ContribTx : Type := {
  ct_meta : option ContribMeta;
  ct_accountKeys : list AccountKey;
  ct_instructions : list parsed_field
}.

(** The dictionary returned for a contribution; ["time"] is the local
    time of the block, or "Unknown" ([None]). *)
Record ContributionRow : Type := {
  row_sender : option string;
  row_amount : float;
  row_timestamp : option Z;
  row_time : option local_time;
  row_signature : string
}.

Definition VALID_AMOUNTS : list float := [0.25; 0.5; 1; 2]%float.

Definition TARGET_TOTAL : float := 24.25%float.

(** [float(n)], as [n / 1e9] converts its left operand. *)
Definition float_of_int (n : Z) : attempt float :=
  if DBL_OVERFLOW <=? Z.abs n then Throws (Builtin OverflowError)
  else Returns (SF2Prim (binary_normalize prec emax n 0 false)).

(** The search for the treasury: every key is asked for its ["pubkey"]. *)
Fixpoint find_pubkey_index (account_keys : list AccountKey) (i : nat)
    : attempt (option nat) :=
  match account_keys with
  | [] => Returns None
  | KeyStr _ :: _ => Throws AttributeError
  | KeyDict pubkey :: rest =>
      if opt_str_eqb pubkey TREASURY_WALLET then Returns (Some i)
      else find_pubkey_index rest (S i)
  end.

(** [x in VALID_AMOUNTS]. *)
Definition valid_amount (x : float) : bool :=
  existsb (fun v => (x =? v)%float) VALID_AMOUNTS.

(** The instruction loop: the first parsed transfer to the treasury whose
    amount is one of the valid ones. *)
Fixpoint find_contribution (instrs : list parsed_field)
    : attempt (option (option string * float)) :=
  match instrs with
  | [] => Returns None
  | inst :: rest =>
      match inst with
      | ParsedText text =>
          if String.eqb text "" then find_contribution rest
          else Throws AttributeError
      | ParsedAbsent => find_contribution rest
      | ParsedObject parsed =>
          if opt_str_eqb (parsed_type parsed) "transfer" then
            let info :=
              match parsed_info parsed with
              | Some info => info
              | None => {| info_source := None; info_destination := None;
                           info_lamports := None |}
              end in
            if opt_str_eqb (info_destination info) TREASURY_WALLET then
              let lamports :=
                match info_lamports info with Some l => l | None => 0 end in
              match float_of_int lamports with
              | Throws e => Throws e
              | Returns f =>
                  let sol_amount := (f / 1000000000)%float in
                  if valid_amount sol_amount
                  then Returns (Some (info_source info, sol_amount))
                  else find_contribution rest
              end
            else find_contribution rest
          else find_contribution rest
      end
  end.

(** [time_str]: "Unknown" ([None]) unless the block time is truthy, and
    then [datetime.fromtimestamp(blockTime)] rendered, which raises on a
    block time out of its range. *)
Definition time_str (block_time : option Z) : attempt (option local_time) :=
  match block_time with
  | Some t =>
      if t =? 0 then Returns None
      else match format_timestamp (Some t) with
           | Ok formatted => Returns (Some formatted)
           | Raise e => Throws (Builtin e)
           end
  | None => Returns None
  end.

Definition process_transaction (tx_data : option ContribTx) (sig : string)
    (block_time : option Z) : attempt (option ContributionRow) :=
  match tx_data with
  | None => Returns None
  | Some tx =>
  match ct_meta tx with
  | None => Returns None
  | Some meta =>
  match cm_postBalances meta, cm_preBalances meta with
  | Some post_balances, Some pre_balances =>
      match find_pubkey_index (ct_accountKeys tx) 0 with
      | Throws e => Throws e
      | Returns None => Returns None
      | Returns (Some treasury_index) =>
          let not_a_deposit :=
            match nth_error post_balances treasury_index,
                  nth_error pre_balances treasury_index with
            | Some post_balance, Some pre_balance => post_balance <=? pre_balance
            | _, _ => false
            end in
          if not_a_deposit then Returns None
          else
            match find_contribution (ct_instructions tx) with
            | Throws e => Throws e
            | Returns None => Returns None
            | Returns (Some (sender, sol_amount)) =>
                match time_str block_time with
                | Throws e => Throws e
                | Returns time =>
                    Returns (Some {|
                      row_sender := sender;
                      row_amount := sol_amount;
                      row_timestamp := block_time;
                      row_time := time;
                      row_signature := sig |})
                end
            end
      end
  | _, _ => Returns None
  end
  end
  end.

Definition contribution_tx (keys : list AccountKey) (pre post : list Z)
    (instrs : list parsed_field) : ContribTx :=
  {| ct_meta := Some {| cm_preBalances := Some pre;
                        cm_postBalances := Some post |};
     ct_accountKeys := keys;
     ct_instructions := instrs |}.

Definition transfer_to_treasury (source : string) (lamports : Z)
    : parsed_field :=
  ParsedObject
    {| parsed_type := Some "transfer";
       parsed_info := Some {| info_source := Some source;
                              info_destination := Some TREASURY_WALLET;
                              info_lamports := Some lamports |} |}.

Example half_sol_contribution :
  process_transaction
    (Some (contribution_tx [KeyDict (Some "A"); KeyDict (Some TREASURY_WALLET)]
             [2000000000; 0] [1499995000; 500000000]
             [ParsedAbsent; transfer_to_treasury "A" 500000000]))
    "sig1" (Some 1700000000)
  = Returns (Some {| row_sender := Some "A";
                     row_amount := 0.5%float;
                     row_timestamp := Some 1700000000;
                     row_time := Some (LocalTime 1700000000);
                     row_signature := "sig1" |}).
Proof. vm_compute. reflexivity. Qed.

Example odd_amount_ignored :
  process_transaction
    (Some (contribution_tx [KeyDict (Some "A"); KeyDict (Some TREASURY_WALLET)]
             [2000000000; 0] [1699995000; 300000000]
             [transfer_to_treasury "A" 300000000]))
    "sig1" (Some 1700000000)
  = Returns None.
Proof. vm_compute. reflexivity. Qed.

Section ContributionFacts.

Lemma opt_str_eqb_eq (o : option string) (s : string) :
  opt_str_eqb o s = true -> o = Some s.
Proof.
  destruct o as [s'|]; simpl; [|discriminate].
  intros H. apply String.eqb_eq in H. subst. reflexivity.
Qed.

(** Float equality with a finite non-zero number is identity. *)
Lemma eqb_finite (x y : float) (s : bool) (m : positive) (e : Z) :
  Prim2SF y = S754_finite s m e -> (x =? y)%float = true -> x = y.
Proof.
  intros Hy Heq. rewrite FloatAxioms.eqb_spec, Hy in Heq. apply Prim2SF_inj. rewrite Hy.
  unfold SFeqb, SFcompare in Heq.
  destruct (Prim2SF x) as [sx|sx| |sx mx ex]; try discriminate Heq;
    try (destruct sx; discriminate Heq).
  - destruct sx, s; discriminate Heq.
  - destruct sx, s; try discriminate Heq;
      destruct (Z.compare_spec ex e) as [He|He|He]; try discriminate Heq;
      subst ex; f_equal.
    + destruct (Pos.compare_cont Eq mx m) eqn:Ec; try discriminate Heq.
      apply Pos.compare_eq in Ec. exact Ec.
    + destruct (Pos.compare_cont Eq mx m) eqn:Ec; try discriminate Heq.
      apply Pos.compare_eq in Ec. exact Ec.
Qed.

Lemma valid_amount_values (x : float) :
  valid_amount x = true ->
  x = 0.25%float \/ x = 0.5%float \/ x = 1%float \/ x = 2%float.
Proof.
  unfold valid_amount, VALID_AMOUNTS. simpl. intros H.
  repeat (apply orb_true_iff in H; destruct H as [H|H]);
    try discriminate H.
  - left. revert H. apply eqb_finite with (s := false) (m := 4503599627370496%positive) (e := (-54)%Z).
    vm_compute. reflexivity.
  - right. left. revert H. apply eqb_finite with (s := false) (m := 4503599627370496%positive) (e := (-53)%Z).
    vm_compute. reflexivity.
  - right. right. left. revert H. apply eqb_finite with (s := false) (m := 4503599627370496%positive) (e := (-52)%Z).
    vm_compute. reflexivity.
  - right. right. right. revert H. apply eqb_finite with (s := false) (m := 4503599627370496%positive) (e := (-51)%Z).
    vm_compute. reflexivity.
Qed.

(** What the instruction loop returns comes from a parsed transfer to the
    treasury. *)
Lemma find_contribution_sound (instrs : list parsed_field)
    (sender : option string) (amount : float) :
  find_contribution instrs = Returns (Some (sender, amount)) ->
  exists parsed info lamports f,
    In (ParsedObject parsed) instrs
    /\ parsed_type parsed = Some "transfer"
    /\ parsed_info parsed = Some info
    /\ info_destination info = Some TREASURY_WALLET
    /\ info_source info = sender
    /\ match info_lamports info with Some l => l | None => 0 end = lamports
    /\ float_of_int lamports = Returns f
    /\ amount = (f / 1000000000)%float
    /\ valid_amount amount = true.
Proof.
  induction instrs as [|inst rest IH]; [discriminate|].
  cbn [find_contribution]. intros H.
  assert (Hrest : find_contribution rest = Returns (Some (sender, amount)) ->
                  exists parsed info lamports f,
                    In (ParsedObject parsed) (inst :: rest)
                    /\ parsed_type parsed = Some "transfer"
                    /\ parsed_info parsed = Some info
                    /\ info_destination info = Some TREASURY_WALLET
                    /\ info_source info = sender
                    /\ match info_lamports info with Some l => l | None => 0 end
                       = lamports
                    /\ float_of_int lamports = Returns f
                    /\ amount = (f / 1000000000)%float
                    /\ valid_amount amount = true).
  { intros Hr. destruct (IH Hr) as (p & i & l & f & Hin & Hrest).
    exists p, i, l, f. split; [right; exact Hin | exact Hrest]. }
  destruct inst as [|text|parsed].
  - apply Hrest. exact H.
  - destruct (String.eqb text ""); [apply Hrest; exact H | discriminate H].
  - destruct (opt_str_eqb (parsed_type parsed) "transfer") eqn:Et;
      [|apply Hrest; exact H].
    destruct (parsed_info parsed) as [info|] eqn:Ei;
      [|simpl in H; apply Hrest; exact H].
    destruct (opt_str_eqb (info_destination info) TREASURY_WALLET) eqn:Ed;
      [|apply Hrest; exact H].
    cbv zeta in H.
    destruct (float_of_int match info_lamports info with
                           | Some l => l
                           | None => 0
                           end) as [f|e] eqn:Ef; [|discriminate H].
    destruct (valid_amount (f / 1000000000)%float) eqn:Ev;
      [|apply Hrest; exact H].
    injection H as <- <-.
    exists parsed, info, match info_lamports info with
                         | Some l => l
                         | None => 0
                         end, f.
    repeat split; try assumption; try reflexivity.
    + left. reflexivity.
    + apply opt_str_eqb_eq. exact Et.
    + apply opt_str_eqb_eq. exact Ed.
Qed.

End ContributionFacts.

(** A contribution that is reported has one of the four valid amounts
    0.25, 0.5, 1 or 2 SOL, carries the signature and block time it was
    called with, and comes from a transaction that lists the treasury
    among its keys, did not leave the treasury balance unchanged or lower
    (when both balance lists reach the treasury's index), and holds a
    parsed "transfer" instruction to the treasury of that amount, whose
    source is the sender reported. *)
Theorem contribution_sound (tx_data : option ContribTx) (sig : string)
    (block_time : option Z) (row : ContributionRow) :
  process_transaction tx_data sig block_time = Returns (Some row) ->
  (row_amount row = 0.25%float \/ row_amount row = 0.5%float
   \/ row_amount row = 1%float \/ row_amount row = 2%float)
  /\ row_signature row = sig
  /\ row_timestamp row = block_time
  /\ exists tx meta pre_balances post_balances idx,
       tx_data = Some tx
       /\ ct_meta tx = Some meta
       /\ cm_preBalances meta = Some pre_balances
       /\ cm_postBalances meta = Some post_balances
       /\ find_pubkey_index (ct_accountKeys tx) 0 = Returns (Some idx)
       /\ (forall pre post,
             nth_error pre_balances idx = Some pre ->
             nth_error post_balances idx = Some post -> pre < post)
       /\ exists parsed info lamports f,
            In (ParsedObject parsed) (ct_instructions tx)
            /\ parsed_type parsed = Some "transfer"
            /\ parsed_info parsed = Some info
            /\ info_destination info = Some TREASURY_WALLET
            /\ info_source info = row_sender row
            /\ match info_lamports info with Some l => l | None => 0 end
               = lamports
            /\ float_of_int lamports = Returns f
            /\ row_amount row = (f / 1000000000)%float.
Proof.
  unfold process_transaction.
  destruct tx_data as [tx|]; [|discriminate].
  destruct (ct_meta tx) as [meta|] eqn:Hmeta; [|discriminate].
  destruct (cm_postBalances meta) as [post_balances|] eqn:Hpost;
    [|discriminate].
  destruct (cm_preBalances meta) as [pre_balances|] eqn:Hpre;
    [|discriminate].
  destruct (find_pubkey_index (ct_accountKeys tx) 0) as [[idx|]|e] eqn:Hidx;
    try discriminate.
  cbv zeta.
  destruct (match nth_error post_balances idx with
            | Some post_balance =>
                match nth_error pre_balances idx with
                | Some pre_balance => post_balance <=? pre_balance
                | None => false
                end
            | None => false
            end) eqn:Hguard; [discriminate|].
  destruct (find_contribution (ct_instructions tx)) as [[[sender amount]|]|e]
    eqn:Hfind; try discriminate.
  destruct (time_str block_time) as [time|e]; [|discriminate].
  intros H. injection H as <-. simpl.
  destruct (find_contribution_sound _ _ _ Hfind)
    as (parsed & info & lamports & f & Hin & Ht & Hi & Hd & Hs & Hl & Hf
        & Ha & Hv).
  split; [apply valid_amount_values; exact Hv|].
  split; [reflexivity|]. split; [reflexivity|].
  exists tx, meta, pre_balances, post_balances, idx.
  repeat split; try assumption.
  - intros pre post Hp Hq. rewrite Hp, Hq in Hguard.
    apply Z.leb_gt in Hguard. exact Hguard.
  - exists parsed, info, lamports, f. repeat split; assumption.
Qed.

Lemma contribution_sound_witness :
  (row_amount {| row_sender := Some "A"; row_amount := 0.5%float;
                 row_timestamp := Some 1700000000;
                 row_time := Some (LocalTime 1700000000);
                 row_signature := "sig1" |} = 0.25%float
   \/ row_amount {| row_sender := Some "A"; row_amount := 0.5%float;
                    row_timestamp := Some 1700000000;
                    row_time := Some (LocalTime 1700000000);
                    row_signature := "sig1" |} = 0.5%float
   \/ row_amount {| row_sender := Some "A"; row_amount := 0.5%float;
                    row_timestamp := Some 1700000000;
                    row_time := Some (LocalTime 1700000000);
                    row_signature := "sig1" |} = 1%float
   \/ row_amount {| row_sender := Some "A"; row_amount := 0.5%float;
                    row_timestamp := Some 1700000000;
                    row_time := Some (LocalTime 1700000000);
                    row_signature := "sig1" |} = 2%float)
  /\ row_signature {| row_sender := Some "A"; row_amount := 0.5%float;
                      row_timestamp := Some 1700000000;
                      row_time := Some (LocalTime 1700000000);
                      row_signature := "sig1" |} = "sig1"
  /\ row_timestamp {| row_sender := Some "A"; row_amount := 0.5%float;
                      row_timestamp := Some 1700000000;
                      row_time := Some (LocalTime 1700000000);
                      row_signature := "sig1" |} = Some 1700000000
  /\ exists tx meta pre_balances post_balances idx,
       Some (contribution_tx
               [KeyDict (Some "A"); KeyDict (Some TREASURY_WALLET)]
               [2000000000; 0] [1499995000; 500000000]
               [ParsedAbsent; transfer_to_treasury "A" 500000000]) = Some tx
       /\ ct_meta tx = Some meta
       /\ cm_preBalances meta = Some pre_balances
       /\ cm_postBalances meta = Some post_balances
       /\ find_pubkey_index (ct_accountKeys tx) 0 = Returns (Some idx)
       /\ (forall pre post,
             nth_error pre_balances idx = Some pre ->
             nth_error post_balances idx = Some post -> pre < post)
       /\ exists parsed info lamports f,
            In (ParsedObject parsed) (ct_instructions tx)
            /\ parsed_type parsed = Some "transfer"
            /\ parsed_info parsed = Some info
            /\ info_destination info = Some TREASURY_WALLET
            /\ info_source info
               = row_sender {| row_sender := Some "A"; row_amount := 0.5%float;
                               row_timestamp := Some 1700000000;
                               row_time := Some (LocalTime 1700000000);
                               row_signature := "sig1" |}
            /\ match info_lamports info with Some l => l | None => 0 end
               = lamports
            /\ float_of_int lamports = Returns f
            /\ row_amount {| row_sender := Some "A"; row_amount := 0.5%float;
                             row_timestamp := Some 1700000000;
                             row_time := Some (LocalTime 1700000000);
                             row_signature := "sig1" |}
               = (f / 1000000000)%float.
Proof.
  apply (contribution_sound
           (Some (contribution_tx
                    [KeyDict (Some "A"); KeyDict (Some TREASURY_WALLET)]
                    [2000000000; 0] [1499995000; 500000000]
                    [ParsedAbsent; transfer_to_treasury "A" 500000000]))
           "sig1" (Some 1700000000)).
  vm_compute. reflexivity.
Defined.

Lemma find_pubkey_index_bare (before rest : list AccountKey) (s : string) :
  Forall (fun k => exists p, k = KeyDict p
                             /\ opt_str_eqb p TREASURY_WALLET = false) before ->
  forall i, find_pubkey_index (before ++ KeyStr s :: rest) i
            = Throws AttributeError.
Proof.
  induction 1 as [|k before (p & -> & Hp) _ IH]; intros i; [reflexivity|].
  simpl. rewrite Hp. apply IH.
Qed.

Lemma find_contribution_text (before rest : list parsed_field) (text : string) :
  find_contribution before = Returns None ->
  text <> "" ->
  find_contribution (before ++ ParsedText text :: rest) = Throws AttributeError.
Proof.
  intros Hb Ht. induction before as [|inst before IH].
  - simpl. destruct (String.eqb_spec text ""); [contradiction | reflexivity].
  - cbn [app find_contribution] in *.
    destruct inst as [|t|parsed].
    + apply IH. exact Hb.
    + destruct (String.eqb t ""); [apply IH; exact Hb | discriminate Hb].
    + destruct (opt_str_eqb (parsed_type parsed) "transfer");
        [|apply IH; exact Hb].
      cbv zeta in *.
      destruct (opt_str_eqb _ TREASURY_WALLET); [|apply IH; exact Hb].
      destruct (float_of_int _) as [f|e]; [|discriminate Hb].
      destruct (valid_amount _); [discriminate Hb | apply IH; exact Hb].
Qed.

(** [process_transaction] needs the "jsonParsed" shapes and raises
    [AttributeError] otherwise, where [extract_sol_transfers] accepts
    them: on an account key given as a bare string (the treasury's own
    address included) that is met before an object key naming the
    treasury, and on an instruction whose ["parsed"] is a non-empty text
    (a memo) that is met before a valid contribution. *)
Theorem unparsed_shapes_raise (pre post : list Z) (sig : string)
    (block_time : option Z) :
  (forall (before rest : list AccountKey) (s : string)
          (instrs : list parsed_field),
      Forall (fun k => exists p, k = KeyDict p
                                 /\ opt_str_eqb p TREASURY_WALLET = false)
        before ->
      process_transaction
        (Some (contribution_tx (before ++ KeyStr s :: rest) pre post instrs))
        sig block_time = Throws AttributeError)
  /\ (forall (keys : list AccountKey) (idx : nat) (p q : Z)
             (before rest : list parsed_field) (text : string),
        find_pubkey_index keys 0 = Returns (Some idx) ->
        nth_error pre idx = Some p -> nth_error post idx = Some q -> p < q ->
        find_contribution before = Returns None ->
        text <> "" ->
        process_transaction
          (Some (contribution_tx keys pre post
                   (before ++ ParsedText text :: rest)))
          sig block_time = Throws AttributeError).
Proof.
  split.
  - intros before rest s instrs Hb. unfold process_transaction. simpl.
    rewrite (find_pubkey_index_bare before rest s Hb). reflexivity.
  - intros keys idx p q before rest text Hidx Hp Hq Hlt Hb Ht.
    unfold process_transaction. simpl. rewrite Hidx, Hq, Hp.
    apply Z.leb_gt in Hlt. rewrite Hlt.
    rewrite (find_contribution_text before rest text Hb Ht). reflexivity.
Qed.

Example bare_treasury_key_raises :
  process_transaction
    (Some (contribution_tx [KeyDict (Some "A"); KeyStr TREASURY_WALLET]
             [2000000000; 0] [1499995000; 500000000]
             [transfer_to_treasury "A" 500000000]))
    "sig1" (Some 1700000000)
  = Throws AttributeError.
Proof. vm_compute. reflexivity. Qed.

(** ** scripts/fetch_contributions.py: the tally of the main loop *)

(** The [for] loop over one page: each entry's transaction is fetched and
    processed, a contribution is appended and added to the total, and the
    loop is left as soon as the total reaches the target. *)
Fixpoint tally_page (get_transaction : string -> option ContribTx)
    (entries : list SignatureRecord)
    (state : list ContributionRow * float)
    : attempt (list ContributionRow * float) :=
  match entries with
  | [] => Returns state
  | entry :: rest =>
      match process_transaction (get_transaction (sig_signature entry))
              (sig_signature entry) (sig_blockTime entry) with
      | Throws e => Throws e
      | Returns None => tally_page get_transaction rest state
      | Returns (Some contribution) =>
          let all_contributions := fst state ++ [contribution] in
          let total_sol := (snd state + row_amount contribution)%float in
          if (TARGET_TOTAL <=? total_sol)%float
          then Returns (all_contributions, total_sol)
          else tally_page get_transaction rest (all_contributions, total_sol)
      end
  end.

(** The [while] loop: [remaining] is [max_batches - batch_count].
    [get_signatures calls cursor] is the page returned to request number
    [calls] (empty on an error); an empty page is asked for again. *)
Fixpoint tally_batches
    (get_signatures : nat -> option string -> list SignatureRecord)
    (get_transaction : string -> option ContribTx)
    (remaining calls : nat) (before_signature : option string)
    (state : list ContributionRow * float)
    : attempt (list ContributionRow * float) :=
  match remaining with
  | O => Returns state
  | S remaining' =>
      if (snd state <? TARGET_TOTAL)%float then
        let cursor :=
          if str_truthy before_signature then before_signature else None in
        match get_signatures calls cursor with
        | [] =>
            tally_batches get_signatures get_transaction remaining' (S calls)
              before_signature state
        | first :: others =>
            match tally_page get_transaction (first :: others) state with
            | Throws e => Throws e
            | Returns state' =>
                tally_batches get_signatures get_transaction remaining'
                  (S calls) (Some (sig_signature (last others first))) state'
            end
        end
      else Returns state
  end.

Definition tally_contributions
    (get_signatures : nat -> option string -> list SignatureRecord)
    (get_transaction : string -> option ContribTx)
    : attempt (list ContributionRow * float) :=
  tally_batches get_signatures get_transaction 20 0 None ([], 0%float).

Section TallyInvariant.

Variable get_signatures : nat -> option string -> list SignatureRecord.
Variable get_transaction : string -> option ContribTx.

(** The total is the sum of the amounts collected, and no proper prefix
    of the contributions had reached the target. *)
Definition tally_ok (state : list ContributionRow * float) : Prop :=
  snd state = py_sum (map row_amount (fst state))
  /\ Forall (fun row => valid_amount (row_amount row) = true) (fst state)
  /\ forall n, (n < List.length (fst state))%nat ->
       (TARGET_TOTAL <=? py_sum (map row_amount (firstn n (fst state))))%float
       = false.

Lemma process_transaction_valid (tx_data : option ContribTx) (sig : string)
    (block_time : option Z) (row : ContributionRow) :
  process_transaction tx_data sig block_time = Returns (Some row) ->
  valid_amount (row_amount row) = true.
Proof.
  unfold process_transaction.
  destruct tx_data as [tx|]; [|discriminate].
  destruct (ct_meta tx) as [meta|]; [|discriminate].
  destruct (cm_postBalances meta); [|discriminate].
  destruct (cm_preBalances meta); [|discriminate].
  destruct (find_pubkey_index (ct_accountKeys tx) 0) as [[idx|]|e];
    try discriminate.
  cbv zeta. destruct (match nth_error l idx with Some _ => _ | None => _ end);
    [discriminate|].
  destruct (find_contribution (ct_instructions tx)) as [[[sender amount]|]|e]
    eqn:Hfind; try discriminate.
  destruct (time_str block_time) as [time|e]; [|discriminate].
  intros H. injection H as <-. simpl.
  destruct (find_contribution_sound _ _ _ Hfind)
    as (_ & _ & _ & _ & _ & _ & _ & _ & _ & _ & _ & _ & Hv).
  exact Hv.
Qed.

Lemma py_sum_snoc (xs : list float) (x : float) :
  py_sum (xs ++ [x]) = (py_sum xs + x)%float.
Proof. unfold py_sum. rewrite fold_left_app. reflexivity. Qed.

(** Appending to a state whose total is still below the target. *)
Lemma tally_ok_snoc (state : list ContributionRow * float)
    (row : ContributionRow) :
  tally_ok state ->
  (TARGET_TOTAL <=? snd state)%float = false ->
  valid_amount (row_amount row) = true ->
  tally_ok (fst state ++ [row], (snd state + row_amount row)%float).
Proof.
  intros (Hsum & Hvalid & Hprefix) Hopen Hv. unfold tally_ok.
  cbn [fst snd]. split; [|split].
  - rewrite map_app. cbn [map]. rewrite py_sum_snoc, <- Hsum. reflexivity.
  - apply Forall_app. split; [exact Hvalid | constructor; [exact Hv | constructor]].
  - intros n Hn. rewrite length_app in Hn. cbn [List.length] in Hn.
    rewrite firstn_app.
    destruct (Nat.lt_ge_cases n (List.length (fst state))) as [Hlt|Hge].
    + replace (n - List.length (fst state))%nat with 0%nat by lia.
      rewrite firstn_O, app_nil_r. apply Hprefix. exact Hlt.
    + assert (n = List.length (fst state)) by lia. subst n.
      rewrite Nat.sub_diag, firstn_O, app_nil_r, firstn_all, <- Hsum.
      exact Hopen.
Qed.

Lemma tally_page_ok (entries : list SignatureRecord) :
  forall state state',
  tally_ok state ->
  (TARGET_TOTAL <=? snd state)%float = false ->
  tally_page get_transaction entries state = Returns state' ->
  tally_ok state'.
Proof.
  induction entries as [|entry rest IH]; intros state state' Hok Hopen Hrun.
  - simpl in Hrun. injection Hrun as <-. exact Hok.
  - cbn [tally_page] in Hrun.
    destruct (process_transaction (get_transaction (sig_signature entry))
                (sig_signature entry) (sig_blockTime entry))
      as [[row|]|e] eqn:Hp; [| |discriminate Hrun].
    + cbv zeta in Hrun.
      pose proof (tally_ok_snoc state row Hok Hopen
                    (process_transaction_valid _ _ _ _ Hp)) as Hok'.
      destruct (TARGET_TOTAL <=? snd state + row_amount row)%float eqn:Hr.
      * injection Hrun as <-. exact Hok'.
      * apply (IH _ _ Hok' Hr Hrun).
    + apply (IH _ _ Hok Hopen Hrun).
Qed.

Lemma tally_batches_ok (remaining : nat) :
  forall calls before state state',
  tally_ok state ->
  tally_batches get_signatures get_transaction remaining calls before state
    = Returns state' ->
  tally_ok state'.
Proof.
  induction remaining as [|remaining IH];
    intros calls before state state' Hok Hrun.
  - simpl in Hrun. injection Hrun as <-. exact Hok.
  - cbn [tally_batches] in Hrun.
    destruct (snd state <? TARGET_TOTAL)%float eqn:Hlt.
    2:{ injection Hrun as <-. exact Hok. }
    assert (Hopen : (TARGET_TOTAL <=? snd state)%float = false).
    { destruct (TARGET_TOTAL <=? snd state)%float eqn:Hle; [|reflexivity].
      apply leb_not_ltb in Hle. rewrite Hle in Hlt. discriminate Hlt. }
    cbv zeta in Hrun.
    destruct (get_signatures calls _) as [|first others].
    + apply (IH _ _ _ _ Hok Hrun).
    + destruct (tally_page get_transaction (first :: others) state)
        as [state1|e] eqn:Hpage; [|discriminate Hrun].
      apply (IH _ _ _ _ (tally_page_ok _ _ _ Hok Hopen Hpage) Hrun).
Qed.

End TallyInvariant.

(** Whatever the provider answers, when the tally ends without an
    exception: the total reported is the sum, from the left, of the
    amounts of the contributions reported; each amount is one of 0.25,
    0.5, 1 and 2 SOL; and the target of 24.25 SOL was not yet reached
    before the last contribution was added, i.e. nothing is processed
    once the target is reached. *)
Theorem tally_contributions_invariant
    (get_signatures : nat -> option string -> list SignatureRecord)
    (get_transaction : string -> option ContribTx)
    (all_contributions : list ContributionRow) (total_sol : float) :
  tally_contributions get_signatures get_transaction
    = Returns (all_contributions, total_sol) ->
  total_sol = py_sum (map row_amount all_contributions)
  /\ Forall (fun row => row_amount row = 0.25%float \/ row_amount row = 0.5%float
                        \/ row_amount row = 1%float \/ row_amount row = 2%float)
       all_contributions
  /\ forall n, (n < List.length all_contributions)%nat ->
       (TARGET_TOTAL
          <=? py_sum (map row_amount (firstn n all_contributions)))%float
       = false.
Proof.
  intros Hrun. unfold tally_contributions in Hrun.
  assert (Hinit : tally_ok ([], 0%float)).
  { unfold tally_ok. simpl. split; [reflexivity|]. split; [constructor|].
    intros n Hn. lia. }
  destruct (tally_batches_ok get_signatures get_transaction 20 0 None
              ([], 0%float) (all_contributions, total_sol) Hinit Hrun)
    as (Hsum & Hvalid & Hprefix).
  simpl in *. split; [exact Hsum|]. split; [|exact Hprefix].
  eapply Forall_impl; [|exact Hvalid].
  intros row Hv. apply valid_amount_values. exact Hv.
Qed.

(** One page of two contributions of 2 SOL, then empty pages. *)
Definition one_page (calls : nat) (cursor : option string)
    : list SignatureRecord :=
  match calls with
  | O => [sig_record "s2"; sig_record "s1"]
  | _ => []
  end.

Definition two_sol_each (sig : string) : option ContribTx :=
  Some (contribution_tx [KeyDict (Some "A"); KeyDict (Some TREASURY_WALLET)]
          [5000000000; 0] [2999995000; 2000000000]
          [transfer_to_treasury "A" 2000000000]).

Definition two_sol_row (sig : string) : ContributionRow :=
  {| row_sender := Some "A"; row_amount := 2%float; row_timestamp := None;
     row_time := None; row_signature := sig |}.

Lemma tally_contributions_invariant_witness :
  4%float = py_sum (map row_amount [two_sol_row "s2"; two_sol_row "s1"])
  /\ Forall (fun row => row_amount row = 0.25%float \/ row_amount row = 0.5%float
                        \/ row_amount row = 1%float \/ row_amount row = 2%float)
       [two_sol_row "s2"; two_sol_row "s1"]
  /\ forall n, (n < List.length [two_sol_row "s2"; two_sol_row "s1"])%nat ->
       (TARGET_TOTAL
          <=? py_sum (map row_amount
                        (firstn n [two_sol_row "s2"; two_sol_row "s1"])))%float
       = false.
Proof.
  apply (tally_contributions_invariant one_page two_sol_each
           [two_sol_row "s2"; two_sol_row "s1"] 4%float).
  vm_compute. reflexivity.
Defined.

(** ** examine_all_txs.py: [get_all_signatures] with a limit *)

Module ExamineAllTxs.

Section Loop.

(** The signature objects of the client library, and their truth value
    as the library defines it. *)
Context {S : Type}.
Variable truthy : S -> bool.

(** [client calls cursor] is the list of signatures of the page returned
    to request number [calls], or [None] when the request raised. *)
Variable client : nat -> option S -> option (list S).

(** The loop of [get_all_signatures(address, limit)]; [fuel] bounds the
    number of requests, [None] means it was used up. *)
Fixpoint get_all_signatures_loop (limit fuel calls : nat) (before : option S)
    (all_signatures : list S) : option (list S) :=
  match fuel with
  | O => None
  | Datatypes.S fuel' =>
      let cursor :=
        match before with
        | Some b => if truthy b then Some b else None
        | None => None
        end in
      match client calls cursor with
      | None => Some all_signatures
      | Some [] => Some all_signatures
      | Some (first :: others) =>
          let all_signatures := all_signatures ++ first :: others in
          if (List.length (first :: others) <? 100)%nat
          then Some all_signatures
          else if (limit <=? List.length all_signatures)%nat
               then Some all_signatures
               else get_all_signatures_loop limit fuel' (Datatypes.S calls)
                      (Some (last others first)) all_signatures
      end
  end.

Definition get_all_signatures (limit fuel : nat) : option (list S) :=
  get_all_signatures_loop limit fuel 0 None [].

End Loop.

End ExamineAllTxs.

Section ExamineLoopBound.

Context {S : Type}.
Variable truthy : S -> bool.
Variable client : nat -> option S -> option (list S).
Variable limit : nat.

Lemma div_step (d d' : nat) :
  (d' + 100 <= d)%nat -> (d' / 100 + 1 <= d / 100)%nat.
Proof.
  intros H. rewrite <- (Nat.div_add d' 1 100) by lia.
  apply Nat.Div0.div_le_mono. lia.
Qed.

(** The loop returns within [(limit - collected) / 100 + 1] requests. *)
Lemma examine_loop_returns (fuel : nat) :
  forall calls before all_signatures,
  ((limit - List.length all_signatures) / 100 < fuel)%nat ->
  exists r,
    ExamineAllTxs.get_all_signatures_loop truthy client limit fuel calls
      before all_signatures = Some r.
Proof.
  induction fuel as [|fuel IH]; intros calls before all_signatures Hfuel;
    [lia|].
  cbn [ExamineAllTxs.get_all_signatures_loop].
  destruct (client calls _) as [[|first others]|];
    try (eexists; reflexivity).
  cbv zeta.
  destruct (List.length (first :: others) <? 100)%nat eqn:Hshort;
    [eexists; reflexivity|].
  destruct (limit <=? List.length (all_signatures ++ first :: others))%nat
    eqn:Hlim; [eexists; reflexivity|].
  apply IH.
  apply Nat.ltb_ge in Hshort. apply Nat.leb_gt in Hlim.
  rewrite length_app in *.
  pose proof (div_step (limit - List.length all_signatures)
                (limit - (List.length all_signatures
                          + List.length (first :: others)))
                ltac:(lia)).
  lia.
Qed.

(** While at most 100 signatures come per page, fewer than [limit + 100]
    are collected. *)
Lemma examine_loop_length (fuel : nat) :
  (forall calls cursor page, client calls cursor = Some page ->
                             (List.length page <= 100)%nat) ->
  forall calls before all_signatures r,
  (List.length all_signatures < limit)%nat ->
  ExamineAllTxs.get_all_signatures_loop truthy client limit fuel calls
    before all_signatures = Some r ->
  (List.length r < limit + 100)%nat
  /\ exists more, r = all_signatures ++ more.
Proof.
  intros Hpage.
  induction fuel as [|fuel IH]; intros calls before all_signatures r Hlen Hrun;
    [discriminate Hrun|].
  cbn [ExamineAllTxs.get_all_signatures_loop] in Hrun.
  destruct (client calls _) as [[|first others]|] eqn:Hc.
  1,3: injection Hrun as <-; split; [lia | exists []; symmetry; apply app_nil_r].
  cbv zeta in Hrun. apply Hpage in Hc.
  destruct (List.length (first :: others) <? 100)%nat eqn:Hshort.
  { injection Hrun as <-. rewrite length_app. split; [lia|].
    exists (first :: others). reflexivity. }
  destruct (limit <=? List.length (all_signatures ++ first :: others))%nat
    eqn:Hlim.
  { injection Hrun as <-. rewrite length_app. split; [lia|].
    exists (first :: others). reflexivity. }
  apply Nat.leb_gt in Hlim.
  destruct (IH _ _ _ _ Hlim Hrun) as [Hr [more Hmore]].
  split; [exact Hr|]. exists ((first :: others) ++ more).
  rewrite Hmore, <- app_assoc. reflexivity.
Qed.

End ExamineLoopBound.

(** Unlike the loop of get_sol_transfers.py, this one always returns,
    whatever the client answers (errors, empty, short or oversized pages,
    the same page again and again): [limit / 100 + 1] requests are the
    most it makes. The limit is tested only after a whole page was
    appended: with pages of at most 100 signatures and [limit > 0], the
    result has fewer than [limit + 100] signatures (so it may exceed
    [limit] by up to 99). *)
Theorem examine_get_all_signatures_terminates {S : Type}
    (truthy : S -> bool) (client : nat -> option S -> option (list S))
    (limit fuel : nat) :
  (limit / 100 < fuel)%nat ->
  exists r,
    ExamineAllTxs.get_all_signatures truthy client limit fuel = Some r
    /\ ((0 < limit)%nat ->
        (forall calls cursor page, client calls cursor = Some page ->
                                   (List.length page <= 100)%nat) ->
        (List.length r < limit + 100)%nat).
Proof.
  intros Hfuel. unfold ExamineAllTxs.get_all_signatures.
  destruct (examine_loop_returns truthy client limit fuel 0 None []
              ltac:(simpl; rewrite Nat.sub_0_r; exact Hfuel)) as [r Hr].
  exists r. split; [exact Hr|].
  intros Hpos Hpage.
  destruct (examine_loop_length truthy client limit fuel Hpage 0 None [] r
              Hpos Hr) as [Hlen _].
  exact Hlen.
Qed.

(** A client that serves the same 100 signatures whatever the cursor. *)
Definition stuck_client (calls : nat) (cursor : option string)
    : option (list string) :=
  Some (repeat "s" 100).

Lemma examine_get_all_signatures_terminates_witness :
  exists r,
    ExamineAllTxs.get_all_signatures (fun _ => true) stuck_client 1000 11
      = Some r
    /\ ((0 < 1000)%nat ->
        (forall calls cursor page, stuck_client calls cursor = Some page ->
                                   (List.length page <= 100)%nat) ->
        (List.length r < 1000 + 100)%nat).
Proof.
  apply (@examine_get_all_signatures_terminates string (fun _ => true)
           stuck_client 1000 11).
  vm_compute. lia.
Defined.

Example examine_overshoots :
  option_map (@List.length string)
    (ExamineAllTxs.get_all_signatures (fun _ => true) stuck_client 150 5)
  = Some 200%nat.
Proof. vm_compute. reflexivity. Qed.

(** ** get_sol_transfers.py: [get_transaction_details] under [main] *)

(** A JSON body that [rpc_request] can return, i.e. one on which
    ["error" in result] did not raise: an object, with its ["result"] when
    it has one; an array, of which only the items that are texts matter;
    or a text. *)
Inductive RpcBody (R : Type) : Type :=
| BodyObject (body_result : option R)
| BodyArray (items : list (option string))
| BodyText (text : string).
Arguments BodyObject {R} body_result.
Arguments BodyArray {R} items.
Arguments BodyText {R} text.

(** [post signature attempt url] is the outcome of the POST of the
    [getTransaction] request for [signature]. A result that is null (or
    empty) is [None]. On an array or a text, ["result" in response] is
    membership or substring search, and [response["result"]] raises
    [TypeError]. *)
Definition get_transaction_details
    (post : string -> nat -> string -> http_outcome (RpcBody (option TxData)))
    (signature : string) : result (option TxData) :=
  response <- fst (rpc_request RPC_URLS (post signature) 0) ;;
  match response with
  | None => Ok None
  | Some (BodyObject None) => Ok None
  | Some (BodyObject (Some tx_data)) => Ok tx_data
  | Some (BodyArray items) =>
      if existsb (fun item => opt_str_eqb item "result") items
      then Raise TypeError
      else Ok None
  | Some (BodyText text) =>
      if str_contains "result" text then Raise TypeError else Ok None
  end.

(** The loop of [main] with the fetch it performs: an exception of
    [get_transaction_details] or of the extractor ends the run. *)
Fixpoint fetch_and_process
    (post : string -> nat -> string -> http_outcome (RpcBody (option TxData)))
    (signatures : list SignatureRecord) (sol_transfers : list Transfer)
    : result (list Transfer) :=
  match signatures with
  | [] => Ok sol_transfers
  | sig_data :: rest =>
      tx_data <- get_transaction_details post (sig_signature sig_data) ;;
      match tx_data with
      | None => fetch_and_process post rest sol_transfers
      | Some tx =>
          transfer_info <- extract_sol_transfers (Some tx) TREASURY_WALLET ;;
          fetch_and_process post rest (ingest sol_transfers transfer_info)
      end
  end.

Lemma fetch_and_process_app
    (post : string -> nat -> string -> http_outcome (RpcBody (option TxData)))
    (earlier later : list SignatureRecord) :
  forall collected,
  fetch_and_process post (earlier ++ later) collected
  = bind (fetch_and_process post earlier collected)
      (fun acc => fetch_and_process post later acc).
Proof.
  induction earlier as [|sig_data earlier IH]; intros collected.
  - reflexivity.
  - cbn [app fetch_and_process].
    destruct (get_transaction_details post (sig_signature sig_data))
      as [[tx|]|e]; cbn [bind]; [|apply IH|reflexivity].
    destruct (extract_sol_transfers (Some tx) TREASURY_WALLET) as [info|e];
      cbn [bind]; [apply IH|reflexivity].
Qed.


(** Every endpoint times out for "sig2". *)
Definition post_but_sig2 (signature : string) (attempt : nat) (url : string)
    : http_outcome (RpcBody (option TxData)) :=
  if String.eqb signature "sig2" then HttpException
  else RpcResult (BodyObject (Some (Some deposit))).

(** A gateway that answers "sig2" with a page of text. *)
Definition gateway_page (signature : string) (attempt : nat) (url : string)
    : http_outcome (RpcBody (option TxData)) :=
  if String.eqb signature "sig2" then RpcResult (BodyText "no result")
  else RpcResult (BodyObject (Some (Some deposit))).


(** ** The transfer extractor: the two shapes of an account key *)

(** A bare address put into an object with a ["pubkey"]. *)
Definition wrap_key (key : AccountKey) : AccountKey :=
  match key with
  | KeyStr s => KeyDict (Some s)
  | KeyDict p => KeyDict p
  end.

Definition with_wrapped_keys (tx : TxData) : TxData :=
  {| tx_meta := tx_meta tx;
     tx_transaction :=
       {| signatures := signatures (tx_transaction tx);
          message :=
            {| accountKeys :=
                 map wrap_key (accountKeys (message (tx_transaction tx)));
               instructions := instructions (message (tx_transaction tx)) |} |};
     blockTime := blockTime tx |}.

Lemma find_treasury_index_wrap (keys : list AccountKey) (treasury : string) :
  forall i, find_treasury_index (map wrap_key keys) treasury i
            = find_treasury_index keys treasury i.
Proof.
  induction keys as [|k keys IH]; intros i; [reflexivity|].
  simpl. rewrite IH. destruct k; reflexivity.
Qed.

Lemma index_wrap (keys : list AccountKey) (i : nat) :
  bind (index (map wrap_key keys) i) (fun k => Ok (key_address k))
  = bind (index keys i) (fun k => Ok (key_address k)).
Proof.
  unfold index. rewrite nth_error_map.
  destruct (nth_error keys i) as [k|]; [|reflexivity].
  simpl. destruct k; reflexivity.
Qed.

Lemma find_sender_wrap (keys : list AccountKey) (fee_lamports : Z)
    (idx : nat) (bc : float) (balances : list (Z * Z)) :
  forall i, find_sender (map wrap_key keys) fee_lamports idx bc i balances
            = find_sender keys fee_lamports idx bc i balances.
Proof.
  induction balances as [|[p q] rest IH]; intros i; [reflexivity|].
  cbn [find_sender]. rewrite !IH.
  destruct (i =? idx)%nat; [reflexivity|].
  destruct (int_truediv (q - p) LAMPORTS_PER_SOL) as [change|e];
    [|reflexivity].
  cbn [bind]. destruct (change <? 0)%float; [|reflexivity].
  destruct (int_truediv fee_lamports LAMPORTS_PER_SOL) as [fee_sol|e];
    [|reflexivity].
  cbn [bind]. destruct (abs bc <=? abs (change + fee_sol))%float;
    [|reflexivity].
  apply index_wrap.
Qed.

Lemma find_recipient_wrap (keys : list AccountKey) (idx : nat) (bc : float)
    (balances : list (Z * Z)) :
  forall i, find_recipient (map wrap_key keys) idx bc i balances
            = find_recipient keys idx bc i balances.
Proof.
  induction balances as [|[p q] rest IH]; intros i; [reflexivity|].
  cbn [find_recipient]. rewrite !IH.
  destruct (i =? idx)%nat; [reflexivity|].
  destruct (int_truediv (q - p) LAMPORTS_PER_SOL) as [change|e];
    [|reflexivity].
  cbn [bind]. destruct ((0 <? change) && (abs bc <=? abs change))%float;
    [|reflexivity].
  apply index_wrap.
Qed.

(** The extractor does not care which shape an account key has: giving
    every bare address as an object with that ["pubkey"] changes neither
    the result nor the exception. *)
Theorem key_shape_irrelevant (tx : TxData) (treasury : string) :
  extract_sol_transfers (Some (with_wrapped_keys tx)) treasury
  = extract_sol_transfers (Some tx) treasury.
Proof.
  unfold extract_sol_transfers, with_wrapped_keys.
  cbn [tx_meta tx_transaction message accountKeys instructions signatures
       blockTime].
  destruct (tx_meta tx) as [meta|]; [|reflexivity]. cbv zeta.
  rewrite find_treasury_index_wrap.
  destruct (find_treasury_index _ treasury 0) as [idx|]; [|reflexivity].
  destruct (nth_error (preBalances meta) idx) as [pre|]; [|reflexivity].
  destruct (nth_error (postBalances meta) idx) as [post|]; [|reflexivity].
  destruct (int_truediv pre LAMPORTS_PER_SOL) as [pre_f|e]; [|reflexivity].
  destruct (int_truediv post LAMPORTS_PER_SOL) as [post_f|e]; [|reflexivity].
  cbn [bind].
  destruct (DUST_EPSILON <? abs (post_f - pre_f))%float; [|reflexivity].
  rewrite find_sender_wrap, find_recipient_wrap. reflexivity.
Qed.
